(** * Metropolis: a shallow embedding of [Metropolis.py]

    The sampler of [Metropolis.py] is a Python object with five attributes
    that its methods mutate in place, and it draws from numpy's process-wide
    random generator.  The embedding threads both through a small
    state-and-exception monad: a computation takes the sampler and the
    generator state and gives back a result (a value or a raised
    exception) together with the sampler and the generator as the call left
    them -- a Python exception does not roll back what was already mutated.

    Python floats are IEEE 754 binary64 numbers; they are modelled by Rocq's
    primitive floats, which are the same format, so that [-inf - -inf],
    comparisons with NaN, and the halving of the smallest subnormal behave
    here as they do in the interpreter. *)

From Stdlib Require Import ZArith List Lia Bool Floats.
Import ListNotations.

#[local] Set Warnings "-inexact-float".
#[local] Open Scope float_scope.

(** ** Python values *)

(** The exceptions a call can end with: the [ZeroDivisionError] of
    [accepts / blockLength], and whatever the caller's [logTarget] raises
    (identified by a code). *)
Inductive PyExn : Type :=
| ZeroDivisionError
| Raised (code : Z).

(** A Python number as [acceptanceRate] holds it: the literal [0] of
    [adapt]'s first line is an [int], a computed rate is a [float]. *)
Inductive PyNum : Type :=
| PyInt (z : Z)
| PyFloat (x : float).

(** [float(z)] for a Python [int]: the nearest double, exact up to
    [2^53]. *)
Definition float_of_int (z : Z) : float :=
  SF2Prim (binary_normalize prec emax z 0 false).

(** [a / b] on Python [int]s: true division, [ZeroDivisionError] on a zero
    divisor.  The interpreter returns the correctly rounded quotient; for
    operands up to [2^53], which convert exactly -- no loop counts further
    -- that is the IEEE quotient of the two converted doubles. *)
Definition int_truediv (a b : Z) : PyExn + float :=
  if Z.eqb b 0 then inl ZeroDivisionError
  else inr (float_of_int a / float_of_int b).

(** [len(range(n))]: a non-positive bound gives the empty range. *)
Definition range_len (n : Z) : nat := Z.to_nat n.

(** ** The sampler object *)

Record Metropolis : Type := mkMetropolis {
  logTarget : float -> PyExn + float;
  currentState : float;
  stepSize : float;
  samples : list float;
  acceptanceRate : option PyNum
}.

(** [Metropolis.__init__]. *)
Definition __init__ (logTarget0 : float -> PyExn + float) (initialState : float)
  : Metropolis :=
  {| logTarget := logTarget0;
     currentState := initialState;
     stepSize := 1.0;
     samples := [initialState];
     acceptanceRate := None |}.

Definition set_currentState (x : float) (m : Metropolis) : Metropolis :=
  {| logTarget := logTarget m; currentState := x; stepSize := stepSize m;
     samples := samples m; acceptanceRate := acceptanceRate m |}.

Definition set_stepSize (s : float) (m : Metropolis) : Metropolis :=
  {| logTarget := logTarget m; currentState := currentState m; stepSize := s;
     samples := samples m; acceptanceRate := acceptanceRate m |}.

Definition samples_append (x : float) (m : Metropolis) : Metropolis :=
  {| logTarget := logTarget m; currentState := currentState m;
     stepSize := stepSize m; samples := samples m ++ [x];
     acceptanceRate := acceptanceRate m |}.

Definition set_acceptanceRate (r : option PyNum) (m : Metropolis) : Metropolis :=
  {| logTarget := logTarget m; currentState := currentState m;
     stepSize := stepSize m; samples := samples m; acceptanceRate := r |}.

(** ** The values of the step size *)

(** [2^e] as a double. *)
Definition pow2 (e : Z) : float := Z.ldexp 1 e.

(** The integers [lo], [lo + 1], ..., [lo + n - 1]. *)
Definition Zrange (lo : Z) (n : nat) : list Z :=
  map (fun i => (lo + Z.of_nat i)%Z) (seq 0 n).

(** Halving and doubling a power of two give the neighbouring power. *)
Definition halving_exact (e : Z) : bool :=
  Leibniz.eqb (pow2 e / 2) (pow2 (e - 1)).

Definition doubling_exact (e : Z) : bool :=
  Leibniz.eqb (pow2 e * 2) (pow2 (e + 1)).

(** What [stepSize] can hold: a power of two from the smallest subnormal
    [2^-1074] to the largest [2^1023], or one of the two values halving and
    doubling end in, [0.0] and [inf]. *)
Inductive step_value : float -> Prop :=
| step_zero : step_value 0
| step_infinity : step_value infinity
| step_pow2 (e : Z) : (-1074 <= e <= 1023)%Z -> step_value (pow2 e).

(** [inf] or a power of two not below [2^-k]. *)
Definition step_above (k : Z) (s : float) : Prop :=
  s = infinity \/ exists e, (- k <= e <= 1023)%Z /\ s = pow2 e.

(** ** Acceptance rates of short blocks *)






(** ** Concrete collaborators

    A generator that replays a tape of pre-drawn numbers, and a few
    log-targets; the examples at the end run the methods on them. *)

Definition Tape : Type := list float.

(** [loc + scale * z] for the next standard-normal draw [z] of the tape. *)
Definition tape_normal (loc scale : float) (t : Tape) : float * Tape :=
  match t with
  | [] => (loc, [])
  | z :: t' => (loc + scale * z, t')
  end.

Definition tape_uniform (t : Tape) : float * Tape :=
  match t with
  | [] => (0.5, [])
  | u :: t' => (u, t')
  end.

(** [np.log] at the uniform draws the tapes use, to the nearest double. *)
Definition log_table (u : float) : float :=
  if u =? 0.5 then -0.6931471805599453
  else if u =? 0.25 then -1.3862943611198906
  else if u =? 0.125 then -2.0794415416798357
  else if u =? 0 then neg_infinity
  else nan.

(** [lambda x: -x**2 / 2], the standard normal. *)
Definition std_normal (x : float) : PyExn + float := inr (- (x * x) / 2).

(** All the mass at [0.0]: zero density, [-inf], everywhere else. *)
Definition point_mass (x : float) : PyExn + float :=
  inr (if x =? 0 then 0 else neg_infinity).

(** A density on [x >= 0] that raises outside its domain. *)
Definition half_line (x : float) : PyExn + float :=
  if x <? 0 then inl (Raised 1) else inr (- x).


(** The same density everywhere. *)
Definition flat (_ : float) : PyExn + float := inr 0.

(** Infinite density at [0.0]. *)
Definition spike (x : float) : PyExn + float :=
  inr (if x =? 0 then infinity else 0).


(** The draws of [n] iterations, every proposal one step size above the
    current state and every uniform draw [0.5]. *)
Fixpoint unit_tape (n : nat) : Tape :=
  match n with
  | O => []
  | S k => 1 :: 0.5 :: unit_tape k
  end.

(** ** Signal detection ([SignalDetection.py])

    The four counts of a detection experiment, as Python [int]s. *)
Record SignalDetection : Type := mkSignalDetection {
  hits : Z;
  misses : Z;
  falseAlarms : Z;
  correctRejections : Z
}.

(** [SignalDetection.hit_rate]. *)
Definition hit_rate (s : SignalDetection) : PyExn + float :=
  int_truediv (hits s) (hits s + misses s).

(** [SignalDetection.false_alarm_rate]. *)
Definition false_alarm_rate (s : SignalDetection) : PyExn + float :=
  int_truediv (falseAlarms s) (falseAlarms s + correctRejections s).

(** [SignalDetection.__add__]. *)
Definition __add__ (s other : SignalDetection) : SignalDetection :=
  {| hits := hits s + hits other;
     misses := misses s + misses other;
     falseAlarms := falseAlarms s + falseAlarms other;
     correctRejections := correctRejections s + correctRejections other |}.

(** [SignalDetection.__mul__], for an [int] scalar. *)
Definition __mul__ (s : SignalDetection) (scalar : Z) : SignalDetection :=
  {| hits := hits s * scalar;
     misses := misses s * scalar;
     falseAlarms := falseAlarms s * scalar;
     correctRejections := correctRejections s * scalar |}.

(** The object has [signalCount] signal trials and [noiseCount] noise
    trials. *)
Definition trials (signalCount noiseCount : Z) (s : SignalDetection) : Prop :=
  (hits s + misses s = signalCount)%Z /\
  (falseAlarms s + correctRejections s = noiseCount)%Z.

Section DetectionModel.

(** scipy's normal distribution and numpy's binomial draw, outside the
    repository and left abstract; the draw may raise (numpy refuses a
    negative [n] and a [p] outside [[0, 1]]). *)
Variable norm_cdf : float -> float.
Variable norm_ppf : float -> float.
Variable RandomState : Type.
Variable np_random_binomial :
  Z -> float -> RandomState -> (PyExn + Z) * RandomState.

(** [SignalDetection.d_prime]: the hit rate is evaluated first. *)
Definition d_prime (s : SignalDetection) : PyExn + float :=
  match hit_rate s with
  | inl e => inl e
  | inr hr =>
      match false_alarm_rate s with
      | inl e => inl e
      | inr far => inr (norm_ppf hr - norm_ppf far)
      end
  end.

(** [SignalDetection.criterion]: [-0.5 * ppf(hr) - ppf(far)], as written. *)
Definition criterion (s : SignalDetection) : PyExn + float :=
  match hit_rate s with
  | inl e => inl e
  | inr hr =>
      match false_alarm_rate s with
      | inl e => inl e
      | inr far => inr (-0.5 * norm_ppf hr - norm_ppf far)
      end
  end.

(** The loop of [SignalDetection.simulate], [sdtList] the objects built so
    far. *)
Fixpoint simulate_loop (dPrime : float) (criteriaList : list float)
  (signalCount noiseCount : Z) (sdtList : list SignalDetection) (g : RandomState)
  : (PyExn + list SignalDetection) * RandomState :=
  match criteriaList with
  | [] => (inr sdtList, g)
  | criteria :: rest =>
      let k := criteria + dPrime / 2 in
      let hr := 1 - norm_cdf (k - dPrime) in
      let far := 1 - norm_cdf k in
      match np_random_binomial signalCount hr g with
      | (inl e, g1) => (inl e, g1)
      | (inr hits0, g1) =>
          let misses0 := (signalCount - hits0)%Z in
          match np_random_binomial noiseCount far g1 with
          | (inl e, g2) => (inl e, g2)
          | (inr falseAlarms0, g2) =>
              let correctRejections0 := (noiseCount - falseAlarms0)%Z in
              simulate_loop dPrime rest signalCount noiseCount
                (sdtList ++ [mkSignalDetection hits0 misses0 falseAlarms0
                               correctRejections0])
                g2
          end
      end
  end.

(** [SignalDetection.simulate]. *)
Definition simulate (dPrime : float) (criteriaList : list float)
  (signalCount noiseCount : Z) (g : RandomState)
  : (PyExn + list SignalDetection) * RandomState :=
  simulate_loop dPrime criteriaList signalCount noiseCount [] g.

End DetectionModel.

(** A binomial draw replayed from a tape, refusing what numpy refuses. *)
Definition tape_binomial (n : Z) (p : float) (t : list Z)
  : (PyExn + Z) * list Z :=
  if (n <? 0)%Z || negb ((0 <=? p) && (p <=? 1)) then (inl (Raised 22), t)
  else match t with
       | [] => (inr 0%Z, [])
       | x :: t' => (inr x, t')
       end.

(** [stats.norm.cdf] and [stats.norm.ppf] at the points the examples use,
    to the nearest double. *)
Definition cdf_table (x : float) : float :=
  if x =? 0 then 0.5
  else if x =? 0.5 then 0.6914624612740131
  else if x =? -0.5 then 0.3085375387259869
  else nan.

Definition ppf_table (q : float) : float :=
  if q =? 0.5 then 0
  else if q =? 0.75 then 0.6744897501960817
  else if q =? 0.25 then -0.6744897501960817
  else nan.


(** [logTarget] raises [e] in the step that decides on [proposal]: at the
    proposal, or, the proposal evaluated, at the current state. *)
Definition raises_at (m : Metropolis) (proposal : float) (e : PyExn) : Prop :=
  logTarget m proposal = inl e \/
  ((exists lp, logTarget m proposal = inr lp) /\
   logTarget m (currentState m) = inl e).

Section Sampler.

(** numpy's generator: its state, the two draws the sampler makes, and
    [np.log].  They are outside the repository and are left abstract; every
    result below holds whatever they compute. *)
Variable RandomState : Type.
Variable np_random_normal : float -> float -> RandomState -> float * RandomState.
Variable np_random_uniform : RandomState -> float * RandomState.
Variable np_log : float -> float.

(** ** The monad of method bodies *)

Record World : Type := mkWorld {
  self : Metropolis;
  rng : RandomState
}.

Definition Py (A : Type) : Type := World -> (PyExn + A) * World.

Definition ret {A} (a : A) : Py A := fun w => (inr a, w).

Definition bind {A B} (c : Py A) (k : A -> Py B) : Py B :=
  fun w =>
    match c w with
    | (inr a, w') => k a w'
    | (inl e, w') => (inl e, w')
    end.

Notation "x <- c ;; k" := (bind c (fun x => k))
  (at level 61, c at next level, right associativity).
Notation "c ;; k" := (bind c (fun _ => k))
  (at level 61, right associativity).

Definition lift {A} (r : PyExn + A) : Py A := fun w => (r, w).

Definition read {A} (f : Metropolis -> A) : Py A := fun w => (inr (f (self w)), w).

Definition update (f : Metropolis -> Metropolis) : Py unit :=
  fun w => (inr tt, {| self := f (self w); rng := rng w |}).

(** [self.logTarget(x)]. *)
Definition call_logTarget (x : float) : Py float :=
  fun w => (logTarget (self w) x, w).

(** [np.random.normal(loc = self.currentState, scale = self.stepSize)].
    numpy refuses a negative scale only, and the step size of a sampler is
    never negative (see the section on the step size), so the draw is
    taken to return. *)
Definition draw_proposal : Py float :=
  fun w =>
    let (x, g) := np_random_normal (currentState (self w)) (stepSize (self w)) (rng w) in
    (inr x, {| self := self w; rng := g |}).

(** [np.random.uniform()]. *)
Definition draw_uniform : Py float :=
  fun w =>
    let (u, g) := np_random_uniform (rng w) in
    (inr u, {| self := self w; rng := g |}).

(** [for i in range(n): acc = body(acc)], the loop variable unused. *)
Fixpoint for_range {A} (n : nat) (body : A -> Py A) (acc : A) : Py A :=
  match n with
  | O => ret acc
  | S k => acc' <- body acc ;; for_range k body acc'
  end.

(** [for x in xs: acc = body(x, acc)]. *)
Fixpoint for_each {A B} (xs : list B) (body : B -> A -> Py A) (acc : A) : Py A :=
  match xs with
  | [] => ret acc
  | x :: rest => acc' <- body x acc ;; for_each rest body acc'
  end.

(** ** The methods *)

(** [Metropolis.__accept]. *)
Definition __accept (proposal : float) : Py bool :=
  lp <- call_logTarget proposal ;;
  cur <- read currentState ;;
  lc <- call_logTarget cur ;;
  let logRatio := lp - lc in
  u <- draw_uniform ;;
  if np_log u <? logRatio then
    update (set_currentState proposal) ;;
    update (samples_append proposal) ;;
    ret true
  else
    cur' <- read currentState ;;
    update (samples_append cur') ;;
    ret false.

(** One pass of a sampling loop's body: draw, then decide. *)
Definition iteration : Py bool :=
  proposal <- draw_proposal ;;
  __accept proposal.

(** The step-size rule at the end of a block. *)
Definition tune (rate : float) : Py unit :=
  if rate <? 0.1 then
    s <- read stepSize ;; update (set_stepSize (s / 2))
  else if 0.6 <? rate then
    s <- read stepSize ;; update (set_stepSize (s * 2))
  else ret tt.

(** The body of [adapt]'s inner loop: [accepts += self.__accept(proposal)],
    a [bool] added to an [int]. *)
Definition count_body (accepts : Z) : Py Z :=
  b <- iteration ;; ret (accepts + Z.b2z b)%Z.

(** The body of [adapt]'s outer loop, for one [blockLength]. *)
Definition adapt_block (blockLength : Z) (_ : PyNum) : Py PyNum :=
  accepts <- for_range (range_len blockLength) count_body 0%Z ;;
  rate <- lift (int_truediv accepts blockLength) ;;
  tune rate ;;
  ret (PyFloat rate).

(** [Metropolis.adapt]. *)
Definition adapt (blockLengths : list Z) : Py Metropolis :=
  rate <- for_each blockLengths adapt_block (PyInt 0) ;;
  update (set_acceptanceRate (Some rate)) ;;
  read (fun m => m).

(** The body of [sample]'s loop: the result of [__accept] is dropped. *)
Definition sample_body (_ : unit) : Py unit :=
  _ <- iteration ;; ret tt.

(** [Metropolis.sample]. *)
Definition sample (nSamples : Z) : Py Metropolis :=
  for_range (range_len nSamples) sample_body tt ;;
  read (fun m => m).

(** ** Calls from outside *)

(** The two public methods a caller can invoke on a sampler. *)
Inductive Op : Type :=
| OpAdapt (blockLengths : list Z)
| OpSample (nSamples : Z).

Definition call (o : Op) : Py Metropolis :=
  match o with
  | OpAdapt blockLengths => adapt blockLengths
  | OpSample nSamples => sample nSamples
  end.

(** A caller's script: the calls in order; an exception ends it. *)
Fixpoint script (ops : list Op) : Py unit :=
  match ops with
  | [] => ret tt
  | o :: rest => call o ;; script rest
  end.

(** The iterations a call asks for. *)
Definition iterations_of (o : Op) : nat :=
  match o with
  | OpAdapt blockLengths => list_sum (map range_len blockLengths)
  | OpSample nSamples => range_len nSamples
  end.

(** No block of the call has length zero. *)
Definition no_zero_block (o : Op) : Prop :=
  match o with
  | OpAdapt blockLengths => Forall (fun L => L <> 0%Z) blockLengths
  | OpSample _ => True
  end.

(** The log-target returns at every state. *)
Definition total_target (f : float -> PyExn + float) : Prop :=
  forall x, exists v, f x = inr v.

(** ** Adaptation as the specification words it

    A second description of [adapt], free of accumulators and exceptions,
    to compare the method with: the decisions of a run of iterations, the
    number of accepted ones, the rate of a block, the step-size rule, and
    the blocks in order. *)

(** The decisions of [n] iterations in a row (cut short at an exception). *)
Fixpoint run_iterations (n : nat) (w : World) : list bool * World :=
  match n with
  | O => ([], w)
  | S k =>
      match iteration w with
      | (inr b, w') =>
          let (bs, w'') := run_iterations k w' in (b :: bs, w'')
      | (inl _, w') => ([], w')
      end
  end.

(** The number of accepted iterations among the decisions. *)
Definition accepted (bs : list bool) : Z :=
  Z.of_nat (count_occ bool_dec bs true).

(** Halve below 0.1, double above 0.6, otherwise keep. *)
Definition tuned (rate s : float) : float :=
  if rate <? 0.1 then s / 2
  else if 0.6 <? rate then s * 2
  else s.

(** A block of length [L]: [L] iterations, the rate [accepted / L], the
    step size retuned. *)
Definition spec_block (L : Z) (w : World) : float * World :=
  let (bs, w1) := run_iterations (Z.to_nat L) w in
  let rate := float_of_int (accepted bs) / float_of_int L in
  (rate,
   {| self := set_stepSize (tuned rate (stepSize (self w1))) (self w1);
      rng := rng w1 |}).

(** The blocks strictly in order, each from the world the previous one
    left; the rates of all blocks, first to last. *)
Fixpoint spec_blocks (blockLengths : list Z) (w : World) : list float * World :=
  match blockLengths with
  | [] => ([], w)
  | L :: rest =>
      let (r, w1) := spec_block L w in
      let (rs, w2) := spec_blocks rest w1 in
      (r :: rs, w2)
  end.

(** The rate [adapt] records: that of the last block, or what the local
    variable was initialised with when there was no block. *)
Definition recorded_rate (r0 : PyNum) (rates : list float) : PyNum :=
  match rates with
  | [] => r0
  | r :: rs => PyFloat (last rs r)
  end.

(** ** Reachable samplers

    [reachable k m]: the sampler [m] was built by [__init__] and then went
    through calls of [sample] and [adapt], each with the generator in any
    state and whether it returned or raised; [k] counts the blocks handed
    to [adapt] so far. *)
Inductive reachable : nat -> Metropolis -> Prop :=
| reach_init (target : float -> PyExn + float) (initialState : float) :
    reachable O (__init__ target initialState)
| reach_sample (k : nat) (m : Metropolis) (g : RandomState) (nSamples : Z) :
    reachable k m ->
    reachable k (self (snd (sample nSamples {| self := m; rng := g |})))
| reach_adapt (k : nat) (m : Metropolis) (g : RandomState) (blockLengths : list Z) :
    reachable k m ->
    reachable (k + length blockLengths)
      (self (snd (adapt blockLengths {| self := m; rng := g |}))).

(** The world with [acceptanceRate] overwritten: what the last line of
    [adapt] does to it. *)
Definition with_rate (a : option PyNum) (w : World) : World :=
  {| self := set_acceptanceRate a (self w); rng := rng w |}.


(** ** Outcomes of a computation

    [post c w Q E]: run from [w], [c] either returns a value and a world
    satisfying [Q] or raises an exception and leaves a world satisfying
    [E]. *)
Definition post {A} (c : Py A) (w : World)
  (Q : A -> World -> Prop) (E : PyExn -> World -> Prop) : Prop :=
  match c w with
  | (inr a, w') => Q a w'
  | (inl e, w') => E e w'
  end.

(** ** The accept/reject step *)

(** What [__accept] does when both evaluations of [logTarget] return. *)
Lemma accept_run (proposal : float) (w : World) (lp lc : float) :
  logTarget (self w) proposal = inr lp ->
  logTarget (self w) (currentState (self w)) = inr lc ->
  __accept proposal w =
    (let (u, g) := np_random_uniform (rng w) in
     if np_log u <? lp - lc then
       (inr true,
        {| self := samples_append proposal (set_currentState proposal (self w));
           rng := g |})
     else
       (inr false,
        {| self := samples_append (currentState (self w)) (self w); rng := g |})).
Proof.
  intros Hp Hc.
  unfold __accept, bind, call_logTarget, read, draw_uniform, update, ret.
  rewrite Hp, Hc.
  destruct (np_random_uniform (rng w)) as [u g]; cbn.
  destruct (np_log u <? lp - lc); reflexivity.
Qed.

(** C1. With the proposal drawn and [u] the uniform draw of the step, the
    step accepts exactly when [log u < logTarget proposal - logTarget
    currentState]; an accepting step returns [True], moves [currentState] to
    the proposal and appends the proposal to the history. *)
Theorem accept_iff_log_u_below_ratio (proposal : float) (w : World) (lp lc : float) :
  logTarget (self w) proposal = inr lp ->
  logTarget (self w) (currentState (self w)) = inr lc ->
  let u := fst (np_random_uniform (rng w)) in
  let r := __accept proposal w in
  (fst r = inr true <-> (np_log u <? lp - lc) = true) /\
  (fst r = inr false <-> (np_log u <? lp - lc) = false) /\
  (fst r = inr true ->
     currentState (self (snd r)) = proposal /\
     samples (self (snd r)) = samples (self w) ++ [proposal]).
Proof.
  intros Hp Hc u r. subst u r.
  rewrite (accept_run proposal w lp lc Hp Hc).
  destruct (np_random_uniform (rng w)) as [u g]; cbn.
  destruct (np_log u <? lp - lc); cbn.
  - repeat split; auto; discriminate.
  - repeat split; auto; discriminate.
Qed.

(** The step either raises and leaves the world as it found it, or returns
    and has appended one value. *)
Lemma accept_cases (proposal : float) (w : World) :
  match __accept proposal w with
  | (inl e, w') => w' = w /\ raises_at (self w) proposal e
  | (inr true, w') =>
      self w' = samples_append proposal (set_currentState proposal (self w))
  | (inr false, w') =>
      self w' = samples_append (currentState (self w)) (self w)
  end.
Proof.
  destruct (logTarget (self w) proposal) as [e|lp] eqn:Hp.
  - unfold __accept, bind, call_logTarget. rewrite Hp.
    split; [reflexivity | left; exact Hp].
  - destruct (logTarget (self w) (currentState (self w))) as [e|lc] eqn:Hc.
    + unfold __accept, bind, call_logTarget, read. rewrite Hp. cbn. rewrite Hc.
      split; [reflexivity | right; split; [exists lp; exact Hp | exact Hc]].
    + rewrite (accept_run proposal w lp lc Hp Hc).
      destruct (np_random_uniform (rng w)) as [u g].
      destruct (np_log u <? lp - lc); reflexivity.
Qed.

(** An iteration is the draw of the proposal followed by the step. *)
Lemma iteration_unfold (w : World) :
  iteration w =
    __accept (fst (np_random_normal (currentState (self w)) (stepSize (self w)) (rng w)))
      {| self := self w;
         rng := snd (np_random_normal (currentState (self w)) (stepSize (self w)) (rng w)) |}.
Proof.
  unfold iteration, bind, draw_proposal.
  destruct (np_random_normal _ _ _) as [x g]; reflexivity.
Qed.

(** The same case analysis for a whole iteration. *)
Lemma iteration_cases (w : World) :
  let p := fst (np_random_normal (currentState (self w)) (stepSize (self w)) (rng w)) in
  match iteration w with
  | (inl e, w') => self w' = self w /\ raises_at (self w) p e
  | (inr true, w') => self w' = samples_append p (set_currentState p (self w))
  | (inr false, w') => self w' = samples_append (currentState (self w)) (self w)
  end.
Proof.
  intros p. rewrite iteration_unfold. fold p.
  pose proof (accept_cases p
    {| self := self w;
       rng := snd (np_random_normal (currentState (self w)) (stepSize (self w)) (rng w)) |})
    as H.
  destruct (__accept p _) as [[e|[|]] w']; cbn in H; try exact H.
  destruct H as [-> H]; split; [reflexivity | exact H].
Qed.

(** C2. An iteration that returns has appended exactly one value; when it
    rejected, [currentState] is what it was and the appended value is that
    same pre-iteration [currentState]. *)
Theorem rejection_repeats_current (w : World) (b : bool) :
  fst (iteration w) = inr b ->
  let m' := self (snd (iteration w)) in
  length (samples m') = S (length (samples (self w))) /\
  (b = false ->
     currentState m' = currentState (self w) /\
     samples m' = samples (self w) ++ [currentState (self w)]).
Proof.
  intros Hret m'. subst m'.
  pose proof (iteration_cases w) as H. cbv zeta in H.
  destruct (iteration w) as [[e|b'] w']; cbn in *; [discriminate|].
  injection Hret as ->.
  destruct b; rewrite H; cbn; rewrite length_app; cbn; split;
    try lia; try discriminate.
  intros _; split; reflexivity.
Qed.



(** ** Reasoning about outcomes *)

Lemma post_bind {A B} (c : Py A) (k : A -> Py B) (w : World)
  (Q : B -> World -> Prop) (E : PyExn -> World -> Prop) :
  post c w (fun a w' => post (k a) w' Q E) E -> post (bind c k) w Q E.
Proof.
  unfold post, bind. destruct (c w) as [[e|a] w']; auto.
Qed.

Lemma post_weaken {A} (c : Py A) (w : World)
  (Q Q' : A -> World -> Prop) (E E' : PyExn -> World -> Prop) :
  post c w Q E ->
  (forall a w', Q a w' -> Q' a w') ->
  (forall e w', E e w' -> E' e w') ->
  post c w Q' E'.
Proof.
  unfold post. destruct (c w) as [[e|a] w']; auto.
Qed.

(** A loop invariant indexed by the number of passes made. *)
Lemma post_for_range {A} (body : A -> Py A) (E : PyExn -> World -> Prop) (n : nat) :
  forall (I : nat -> A -> World -> Prop) (a : A) (w : World),
    (forall i a w, (i < n)%nat -> I i a w -> post (body a) w (I (S i)) E) ->
    I O a w ->
    post (for_range n body a) w (I n) E.
Proof.
  induction n as [|n IH]; intros I a w Hstep H0.
  - exact H0.
  - cbn [for_range]. apply post_bind.
    apply (post_weaken _ _ (I 1%nat) _ E E).
    + apply (Hstep O); [lia | exact H0].
    + intros a' w' H1.
      apply (IH (fun i => I (S i))); [|exact H1].
      intros i a0 w0 Hi. apply Hstep. lia.
    + auto.
Qed.

(** Loops compose: [k + j] passes are [k] passes and then [j]. *)
Lemma for_range_add {A} (body : A -> Py A) (k j : nat) :
  forall (a : A) (w : World),
    for_range (k + j) body a w = bind (for_range k body a) (for_range j body) w.
Proof.
  induction k as [|k IH]; intros a w.
  - reflexivity.
  - cbn [Nat.add for_range]. unfold bind.
    destruct (body a w) as [[e|a'] w']; [reflexivity|].
    rewrite IH. reflexivity.
Qed.

Lemma for_each_app {A B} (body : B -> A -> Py A) (xs ys : list B) :
  forall (a : A) (w : World),
    for_each (xs ++ ys) body a w = bind (for_each xs body a) (for_each ys body) w.
Proof.
  induction xs as [|x xs IH]; intros a w.
  - reflexivity.
  - cbn [app for_each]. unfold bind.
    destruct (body x a w) as [[e|a'] w']; [reflexivity|].
    rewrite IH. reflexivity.
Qed.

(** The outcome of one iteration, as a triple. *)
Lemma iteration_post (w : World) :
  let p := fst (np_random_normal (currentState (self w)) (stepSize (self w)) (rng w)) in
  post iteration w
    (fun b w' =>
       self w' = if b then samples_append p (set_currentState p (self w))
                 else samples_append (currentState (self w)) (self w))
    (fun e w' => self w' = self w /\ raises_at (self w) p e).
Proof.
  intros p. pose proof (iteration_cases w) as H. cbv zeta in H. fold p in H.
  unfold post. destruct (iteration w) as [[e|[|]] w']; exact H.
Qed.

(** What an iteration leaves alone, and the one value it appends. *)
Lemma iteration_frame (w : World) :
  post iteration w
    (fun _ w' =>
       logTarget (self w') = logTarget (self w) /\
       stepSize (self w') = stepSize (self w) /\
       acceptanceRate (self w') = acceptanceRate (self w) /\
       length (samples (self w')) = S (length (samples (self w))))
    (fun e w' => self w' = self w /\ exists p, raises_at (self w) p e).
Proof.
  apply (post_weaken _ _ _ _ _ _ (iteration_post w)).
  - intros b w' ->. destruct b; cbn; rewrite length_app; cbn;
      repeat split; lia.
  - intros e w' [H1 H2]. split; [exact H1 | eauto].
Qed.

(** ** Exceptions of the log-target *)

Lemma accept_raises (proposal : float) (w : World) (e : PyExn) :
  raises_at (self w) proposal e -> __accept proposal w = (inl e, w).
Proof.
  intros [Hp | [[lp Hp] Hc]];
    unfold __accept, bind, call_logTarget, read; rewrite Hp; [reflexivity|].
  cbn. rewrite Hc. reflexivity.
Qed.

Lemma total_never_raises (m : Metropolis) (proposal : float) (e : PyExn) :
  total_target (logTarget m) -> raises_at m proposal e -> False.
Proof.
  intros Ht [Hp | [_ Hc]].
  - destruct (Ht proposal) as [v Hv]; congruence.
  - destruct (Ht (currentState m)) as [v Hv]; congruence.
Qed.

(** C8. Let the first [k] iterations of [sample] return and the log-target
    raise [e] in the next one.  The step raises [e] and leaves the sampler
    untouched; [sample] ends with the same exception, and the sampler is
    exactly as the [k] completed iterations left it: [currentState] is kept
    and nothing is appended for the failed iteration (only the generator
    has moved, by the draw of the proposal). *)
Theorem logTarget_error_aborts
  (w w1 : World) (k : nat) (nSamples : Z) (e : PyExn) :
  (k < range_len nSamples)%nat ->
  for_range k sample_body tt w = (inr tt, w1) ->
  let draw := np_random_normal (currentState (self w1)) (stepSize (self w1)) (rng w1) in
  let w1' := {| self := self w1; rng := snd draw |} in
  raises_at (self w1) (fst draw) e ->
  __accept (fst draw) w1' = (inl e, w1') /\
  sample nSamples w = (inl e, w1').
Proof.
  intros Hk Hrun draw w1' Hraise.
  assert (Hacc : __accept (fst draw) w1' = (inl e, w1'))
    by (apply accept_raises; exact Hraise).
  split; [exact Hacc|].
  unfold sample.
  replace (range_len nSamples) with (k + S (range_len nSamples - S k))%nat by lia.
  unfold bind at 1. rewrite for_range_add. unfold bind at 1. rewrite Hrun.
  cbn [for_range]. unfold bind at 1. unfold sample_body at 1. unfold bind at 1.
  rewrite iteration_unfold. fold draw. fold w1'. rewrite Hacc. reflexivity.
Qed.

(** The same inside [adapt]: the blocks of [pre] done and [k] iterations
    into the block of length [L], an exception of the log-target ends the
    call and the sampler is as those iterations left it. *)
Lemma adapt_error_propagates
  (pre post_ : list Z) (L : Z) (w w0 w1 : World) (r : PyNum) (k : nat)
  (accepts : Z) (e : PyExn) :
  for_each pre adapt_block (PyInt 0) w = (inr r, w0) ->
  (k < range_len L)%nat ->
  for_range k count_body 0%Z w0 = (inr accepts, w1) ->
  let draw := np_random_normal (currentState (self w1)) (stepSize (self w1)) (rng w1) in
  let w1' := {| self := self w1; rng := snd draw |} in
  raises_at (self w1) (fst draw) e ->
  adapt (pre ++ L :: post_) w = (inl e, w1').
Proof.
  intros Hpre Hk Hrun draw w1' Hraise.
  unfold adapt. unfold bind at 1. rewrite for_each_app. unfold bind at 1.
  rewrite Hpre. cbn [for_each]. unfold bind at 1. unfold adapt_block at 1.
  unfold bind at 1.
  replace (range_len L) with (k + S (range_len L - S k))%nat by lia.
  rewrite for_range_add. unfold bind at 1. rewrite Hrun.
  cbn [for_range]. unfold bind at 1. unfold count_body at 1. unfold bind at 1.
  rewrite iteration_unfold. fold draw. fold w1'.
  rewrite (accept_raises (fst draw) w1' e Hraise). reflexivity.
Qed.

(** ** Sampling *)

(** C10. With a count that is zero or negative [range] is empty: [sample]
    returns the sampler at once, without raising, and nothing has changed
    -- not the current state, the step size, the acceptance rate or the
    history, nor the generator. *)
Theorem sample_nonpositive_noop (nSamples : Z) (w : World) :
  (nSamples <= 0)%Z ->
  sample nSamples w = (inr (self w), w).
Proof.
  intros Hn. unfold sample, range_len.
  replace (Z.to_nat nSamples) with O by lia.
  reflexivity.
Qed.

(** ** Adaptation *)

Lemma Metropolis_eta (m : Metropolis) : set_stepSize (stepSize m) m = m.
Proof. destruct m; reflexivity. Qed.

Lemma World_eta (w : World) : {| self := self w; rng := rng w |} = w.
Proof. destruct w; reflexivity. Qed.

(** The step-size rule never raises and touches nothing but [stepSize]. *)
Lemma tune_run (rate : float) (w : World) :
  tune rate w =
    (inr tt,
     {| self := set_stepSize (tuned rate (stepSize (self w))) (self w);
        rng := rng w |}).
Proof.
  unfold tune, tuned.
  destruct (rate <? 0.1); [reflexivity|].
  destruct (0.6 <? rate); [reflexivity|].
  unfold ret. rewrite Metropolis_eta, World_eta. reflexivity.
Qed.

Lemma accepted_cons (b : bool) (bs : list bool) :
  accepted (b :: bs) = (Z.b2z b + accepted bs)%Z.
Proof.
  unfold accepted. cbn [count_occ].
  destruct (bool_dec b true) as [->|Hb].
  - cbn [Z.b2z]. lia.
  - destruct b; [congruence|]. cbn [Z.b2z]. lia.
Qed.

(** A run of iterations keeps the log-target, the step size and the
    recorded rate, whether or not it is cut short. *)
Lemma run_iterations_frame (n : nat) :
  forall w,
    logTarget (self (snd (run_iterations n w))) = logTarget (self w) /\
    stepSize (self (snd (run_iterations n w))) = stepSize (self w) /\
    acceptanceRate (self (snd (run_iterations n w))) = acceptanceRate (self w).
Proof.
  induction n as [|n IH]; intros w; [repeat split|].
  cbn [run_iterations].
  pose proof (iteration_frame w) as H. unfold post in H.
  destruct (iteration w) as [[e|b] w'].
  - cbn [fst snd]. destruct H as [-> _]. repeat split.
  - destruct H as (Hl & Hs & Ha & _).
    specialize (IH w'). destruct (run_iterations n w') as [bs w''].
    cbn in *. destruct IH as (IHl & IHs & IHa).
    repeat split; congruence.
Qed.

(** With a log-target that returns everywhere, the run is complete: one
    decision and one appended value per iteration. *)
Lemma run_iterations_total (n : nat) :
  forall w,
    total_target (logTarget (self w)) ->
    length (fst (run_iterations n w)) = n /\
    length (samples (self (snd (run_iterations n w)))) =
      (length (samples (self w)) + n)%nat.
Proof.
  induction n as [|n IH]; intros w Ht; [cbn; split; lia|].
  cbn [run_iterations].
  pose proof (iteration_frame w) as H. unfold post in H.
  destruct (iteration w) as [[e|b] w'].
  - destruct H as [_ [p Hp]]. destruct (total_never_raises _ _ _ Ht Hp).
  - destruct H as (Hl & _ & _ & Hn).
    assert (Ht' : total_target (logTarget (self w'))) by (rewrite Hl; exact Ht).
    specialize (IH w' Ht'). destruct (run_iterations n w') as [bs w''].
    cbn in *. destruct IH as [IH1 IH2]. split; lia.
Qed.

(** The counting loop of [adapt] adds the accepted decisions of the run to
    its counter. *)
Lemma count_loop_run (n : nat) :
  forall (a : Z) (w : World),
    total_target (logTarget (self w)) ->
    for_range n count_body a w =
      (inr (a + accepted (fst (run_iterations n w)))%Z, snd (run_iterations n w)).
Proof.
  induction n as [|n IH]; intros a w Ht.
  - cbn. unfold ret, accepted. cbn. rewrite Z.add_0_r. reflexivity.
  - cbn [for_range run_iterations]. unfold bind at 1. unfold count_body at 1.
    unfold bind at 1.
    pose proof (iteration_frame w) as H. unfold post in H.
    destruct (iteration w) as [[e|b] w'].
    + destruct H as [_ [p Hp]]. destruct (total_never_raises _ _ _ Ht Hp).
    + destruct H as (Hl & _).
      assert (Ht' : total_target (logTarget (self w'))) by (rewrite Hl; exact Ht).
      unfold ret at 1. rewrite (IH _ w' Ht').
      destruct (run_iterations n w') as [bs w'']. cbn [fst snd].
      rewrite accepted_cons. f_equal. f_equal. lia.
Qed.

(** The loop of [sample] makes the same run and drops the decisions. *)
Lemma sample_loop_run (n : nat) :
  forall (w : World),
    total_target (logTarget (self w)) ->
    for_range n sample_body tt w = (inr tt, snd (run_iterations n w)).
Proof.
  induction n as [|n IH]; intros w Ht; [reflexivity|].
  cbn [for_range run_iterations]. unfold bind at 1. unfold sample_body at 1.
  unfold bind at 1.
  pose proof (iteration_frame w) as H. unfold post in H.
  destruct (iteration w) as [[e|b] w'].
  - destruct H as [_ [p Hp]]. destruct (total_never_raises _ _ _ Ht Hp).
  - destruct H as (Hl & _).
    assert (Ht' : total_target (logTarget (self w'))) by (rewrite Hl; exact Ht).
    unfold ret at 1. rewrite (IH w' Ht').
    destruct (run_iterations n w') as [bs w'']. reflexivity.
Qed.

(** One pass of [adapt]'s outer loop is the specified block. *)
Lemma adapt_block_run (L : Z) (r : PyNum) (w : World) :
  total_target (logTarget (self w)) ->
  L <> 0%Z ->
  adapt_block L r w = (inr (PyFloat (fst (spec_block L w))), snd (spec_block L w)).
Proof.
  intros Ht HL.
  unfold adapt_block, spec_block, range_len.
  unfold bind at 1. rewrite (count_loop_run _ _ _ Ht).
  destruct (run_iterations (Z.to_nat L) w) as [bs w1]. cbn [fst snd].
  unfold bind at 1. unfold lift, int_truediv.
  destruct (Z.eqb_spec L 0) as [->|_]; [congruence|].
  unfold bind at 1. rewrite tune_run. reflexivity.
Qed.

Lemma spec_block_frame (L : Z) (w : World) :
  logTarget (self (snd (spec_block L w))) = logTarget (self w) /\
  acceptanceRate (self (snd (spec_block L w))) = acceptanceRate (self w) /\
  stepSize (self (snd (spec_block L w))) =
    tuned (fst (spec_block L w)) (stepSize (self w)).
Proof.
  unfold spec_block.
  pose proof (run_iterations_frame (Z.to_nat L) w) as H.
  destruct (run_iterations (Z.to_nat L) w) as [bs w1]. cbn in *.
  destruct H as (Hl & Hs & Ha). rewrite Hs. auto.
Qed.

Lemma spec_block_length (L : Z) (w : World) :
  total_target (logTarget (self w)) ->
  length (samples (self (snd (spec_block L w)))) =
    (length (samples (self w)) + range_len L)%nat.
Proof.
  intros Ht. unfold spec_block, range_len.
  pose proof (run_iterations_total (Z.to_nat L) w Ht) as H.
  destruct (run_iterations (Z.to_nat L) w) as [bs w1]. cbn in *. tauto.
Qed.

Lemma last_cons {A} (rs : list A) :
  forall (r d : A), last (r :: rs) d = last rs r.
Proof.
  induction rs as [|x rs IH]; intros r d; [reflexivity|].
  change (last (r :: x :: rs) d) with (last (x :: rs) d).
  rewrite !IH. reflexivity.
Qed.

Lemma recorded_rate_cons (r0 : PyNum) (r : float) (rs : list float) :
  recorded_rate r0 (r :: rs) = recorded_rate (PyFloat r) rs.
Proof.
  destruct rs as [|x rs]; [reflexivity|].
  unfold recorded_rate. rewrite last_cons. reflexivity.
Qed.

(** The outer loop of [adapt] is the specified sequence of blocks; its
    accumulator ends as the rate of the last one. *)
Lemma adapt_loop_run (blockLengths : list Z) :
  forall (r0 : PyNum) (w : World),
    total_target (logTarget (self w)) ->
    Forall (fun L => L <> 0%Z) blockLengths ->
    for_each blockLengths adapt_block r0 w =
      (inr (recorded_rate r0 (fst (spec_blocks blockLengths w))),
       snd (spec_blocks blockLengths w)) /\
    logTarget (self (snd (spec_blocks blockLengths w))) = logTarget (self w) /\
    acceptanceRate (self (snd (spec_blocks blockLengths w))) = acceptanceRate (self w) /\
    length (fst (spec_blocks blockLengths w)) = length blockLengths /\
    length (samples (self (snd (spec_blocks blockLengths w)))) =
      (length (samples (self w)) + list_sum (map range_len blockLengths))%nat.
Proof.
  induction blockLengths as [|L rest IH]; intros r0 w Ht Hnz.
  - cbn. repeat split. lia.
  - inversion Hnz as [|? ? HL Hrest]; subst.
    cbn [for_each spec_blocks map list_sum]. unfold bind at 1.
    rewrite (adapt_block_run L r0 w Ht HL).
    destruct (spec_block_frame L w) as (Hl & Ha & _).
    pose proof (spec_block_length L w Ht) as Hn.
    destruct (spec_block L w) as [r w1]. cbn [fst snd] in *.
    assert (Ht1 : total_target (logTarget (self w1))) by (rewrite Hl; exact Ht).
    destruct (IH (PyFloat r) w1 Ht1 Hrest) as (IH1 & IH2 & IH3 & IH4 & IH5).
    rewrite IH1.
    destruct (spec_blocks rest w1) as [rs w2]. cbn [fst snd length] in *.
    rewrite recorded_rate_cons.
    split; [reflexivity|]. split; [congruence|]. split; [congruence|].
    split; [lia|]. rewrite IH5, Hn.
    unfold list_sum; cbn [fold_right]; fold (list_sum (map range_len rest)). lia.
Qed.

(** The step size after the specified blocks: the rule applied once per
    block, to the rates in order. *)
Lemma spec_blocks_stepSize (blockLengths : list Z) :
  forall w,
    stepSize (self (snd (spec_blocks blockLengths w))) =
      fold_left (fun s r => tuned r s) (fst (spec_blocks blockLengths w))
        (stepSize (self w)).
Proof.
  induction blockLengths as [|L rest IH]; intros w; [reflexivity|].
  cbn [spec_blocks].
  destruct (spec_block_frame L w) as (_ & _ & Hs).
  destruct (spec_block L w) as [r w1]. cbn [fst snd] in Hs.
  specialize (IH w1). destruct (spec_blocks rest w1) as [rs w2].
  cbn [fst snd fold_left] in *. rewrite IH, Hs. reflexivity.
Qed.

(** [adapt] on blocks none of which is empty of meaning ([L <> 0]): the
    specified blocks, then the rate recorded and the sampler returned. *)
Lemma adapt_run (blockLengths : list Z) (w : World) :
  total_target (logTarget (self w)) ->
  Forall (fun L => L <> 0%Z) blockLengths ->
  let rates := fst (spec_blocks blockLengths w) in
  let w1 := snd (spec_blocks blockLengths w) in
  let m' := set_acceptanceRate (Some (recorded_rate (PyInt 0) rates)) (self w1) in
  adapt blockLengths w = (inr m', {| self := m'; rng := rng w1 |}).
Proof.
  intros Ht Hnz rates w1 m'.
  destruct (adapt_loop_run blockLengths (PyInt 0) w Ht Hnz) as (Hrun & _).
  unfold adapt. unfold bind at 1. rewrite Hrun. reflexivity.
Qed.

(** What a specified block is made of, spelled out: as many decisions as
    the block is long, the rate their accepted share, the step size
    retuned by it, one history entry per iteration. *)
Lemma spec_block_facts (L : Z) (w : World) :
  total_target (logTarget (self w)) ->
  (0 < L)%Z ->
  let bs := fst (run_iterations (Z.to_nat L) w) in
  let rate := fst (spec_block L w) in
  let m' := self (snd (spec_block L w)) in
  Z.of_nat (length bs) = L /\
  rate = float_of_int (accepted bs) / float_of_int L /\
  stepSize m' = tuned rate (stepSize (self w)) /\
  Z.of_nat (length (samples m')) = (Z.of_nat (length (samples (self w))) + L)%Z.
Proof.
  intros Ht HL bs rate m'. subst bs rate m'.
  destruct (run_iterations_total (Z.to_nat L) w Ht) as [H1 _].
  destruct (spec_block_frame L w) as (_ & _ & Hs).
  pose proof (spec_block_length L w Ht) as Hn. unfold range_len in Hn.
  split; [lia|]. split; [|split; [exact Hs | lia]].
  unfold spec_block. destruct (run_iterations (Z.to_nat L) w); reflexivity.
Qed.

(** C5 (amended). [adapt([])] changes neither the step size, the current
    state, the history nor the generator, and returns the sampler; but it
    does assign [acceptanceRate]: the attribute becomes the integer [0]
    the local variable started with, whatever it held before. *)
Theorem adapt_empty_records_zero (w : World) :
  let r := adapt [] w in
  fst r = inr (self (snd r)) /\
  stepSize (self (snd r)) = stepSize (self w) /\
  currentState (self (snd r)) = currentState (self w) /\
  samples (self (snd r)) = samples (self w) /\
  rng (snd r) = rng w /\
  acceptanceRate (self (snd r)) = Some (PyInt 0).
Proof. cbn. repeat split. Qed.

(** C6 (amended). A zero block makes [adapt] raise [ZeroDivisionError]
    when the loop reaches it, not before: the blocks in front of the first
    zero have run in full -- the history has gained one entry per iteration
    of those blocks, the step size has been retuned once per block -- and
    the sampler stays so; the zero block and the blocks behind it change
    nothing, and [acceptanceRate] is not assigned. *)
Theorem adapt_zero_block_raises (pre post_ : list Z) (w : World) :
  total_target (logTarget (self w)) ->
  Forall (fun L => L <> 0%Z) pre ->
  let w1 := snd (spec_blocks pre w) in
  adapt (pre ++ 0%Z :: post_) w = (inl ZeroDivisionError, w1) /\
  length (samples (self w1)) =
    (length (samples (self w)) + list_sum (map range_len pre))%nat /\
  acceptanceRate (self w1) = acceptanceRate (self w) /\
  stepSize (self w1) =
    fold_left
      (fun s r => if r <? 0.1 then s / 2 else if 0.6 <? r then s * 2 else s)
      (fst (spec_blocks pre w)) (stepSize (self w)).
Proof.
  intros Ht Hnz w1. subst w1.
  destruct (adapt_loop_run pre (PyInt 0) w Ht Hnz) as (Hrun & _ & Ha & _ & Hn).
  split; [|split; [exact Hn | split; [exact Ha | exact (spec_blocks_stepSize pre w)]]].
  unfold adapt. unfold bind at 1. rewrite for_each_app. unfold bind at 1.
  rewrite Hrun. reflexivity.
Qed.

(** ** The length of the history *)

Lemma sample_run (nSamples : Z) (w : World) :
  total_target (logTarget (self w)) ->
  let w' := snd (run_iterations (range_len nSamples) w) in
  sample nSamples w = (inr (self w'), w').
Proof.
  intros Ht w'. unfold sample. unfold bind at 1.
  rewrite (sample_loop_run _ w Ht). reflexivity.
Qed.

(** Whatever the log-target does, [sample] leaves the world its run of
    iterations leaves, and the history has grown by the number of
    iterations that completed: an iteration that raised added nothing. *)
Lemma run_iterations_length (n : nat) :
  forall w,
    length (samples (self (snd (run_iterations n w)))) =
      (length (samples (self w)) + length (fst (run_iterations n w)))%nat /\
    (length (fst (run_iterations n w)) <= n)%nat.
Proof.
  induction n as [|n IH]; intros w; [cbn; lia|].
  cbn [run_iterations].
  pose proof (iteration_frame w) as H. unfold post in H.
  destruct (iteration w) as [[e|b] w'].
  - cbn [fst snd length]. destruct H as [-> _]. lia.
  - destruct H as (_ & _ & _ & Hn).
    specialize (IH w'). destruct (run_iterations n w') as [bs w''].
    cbn [fst snd length] in *. lia.
Qed.

Lemma sample_loop_world (n : nat) :
  forall w, snd (for_range n sample_body tt w) = snd (run_iterations n w).
Proof.
  induction n as [|n IH]; intros w; [reflexivity|].
  cbn [for_range run_iterations]. unfold bind at 1. unfold sample_body at 1.
  unfold bind at 1.
  destruct (iteration w) as [[e|b] w']; [reflexivity|].
  unfold ret at 1. cbv beta iota. specialize (IH w').
  destruct (run_iterations n w') as [bs w3]. exact IH.
Qed.

Lemma sample_history_any_outcome (nSamples : Z) (w : World) :
  let done := length (fst (run_iterations (range_len nSamples) w)) in
  length (samples (self (snd (sample nSamples w)))) =
    (length (samples (self w)) + done)%nat /\
  (done <= range_len nSamples)%nat.
Proof.
  intros done. subst done.
  destruct (run_iterations_length (range_len nSamples) w) as [H1 H2].
  split; [|exact H2]. rewrite <- H1. f_equal. f_equal.
  rewrite <- sample_loop_world. unfold sample. unfold bind at 1.
  destruct (for_range (range_len nSamples) sample_body tt w) as [[e|[]] w'];
    reflexivity.
Qed.

(** Every call returns and appends the iterations it asks for. *)
Lemma call_total (o : Op) (w : World) :
  total_target (logTarget (self w)) ->
  no_zero_block o ->
  exists w',
    call o w = (inr (self w'), w') /\
    logTarget (self w') = logTarget (self w) /\
    length (samples (self w')) = (length (samples (self w)) + iterations_of o)%nat.
Proof.
  intros Ht Hnz. destruct o as [blockLengths|nSamples]; cbn [call iterations_of].
  - cbn in Hnz.
    destruct (adapt_loop_run blockLengths (PyInt 0) w Ht Hnz) as (_ & Hl & _ & _ & Hn).
    rewrite (adapt_run blockLengths w Ht Hnz).
    eexists {| self := _; rng := _ |}. split; [reflexivity|].
    cbn [self logTarget samples set_acceptanceRate]. split; assumption.
  - rewrite (sample_run nSamples w Ht).
    exists (snd (run_iterations (range_len nSamples) w)).
    split; [reflexivity|]. split.
    + apply run_iterations_frame.
    + apply run_iterations_total. exact Ht.
Qed.

Lemma script_total (ops : list Op) :
  forall w,
    total_target (logTarget (self w)) ->
    Forall no_zero_block ops ->
    exists w',
      script ops w = (inr tt, w') /\
      length (samples (self w')) =
        (length (samples (self w)) + list_sum (map iterations_of ops))%nat.
Proof.
  induction ops as [|o rest IH]; intros w Ht Hnz.
  - exists w. split; [reflexivity | cbn; lia].
  - inversion Hnz as [|? ? Ho Hrest]; subst.
    destruct (call_total o w Ht Ho) as (w1 & Hcall & Hl & Hn).
    assert (Ht1 : total_target (logTarget (self w1))) by (rewrite Hl; exact Ht).
    destruct (IH w1 Ht1 Hrest) as (w2 & Hrun & Hn2).
    exists w2. cbn [script]. unfold bind. rewrite Hcall. split; [exact Hrun|].
    rewrite Hn2, Hn. cbn [map].
    unfold list_sum; cbn [fold_right]; fold (list_sum (map iterations_of rest)). lia.
Qed.

(** C3. With a log-target that returns, [sample(n)] for [n >= 0] returns
    and the history is longer by exactly [n]; and a sampler just built and
    then taken through any script of [adapt] and [sample] calls (no block of
    length zero) has a history of length 1, the seed, plus the iterations
    of all the blocks and all the sampling calls. *)
Theorem history_length
  (w : World) (nSamples : Z)
  (target : float -> PyExn + float) (initialState : float) (g : RandomState)
  (ops : list Op) :
  total_target (logTarget (self w)) ->
  (0 <= nSamples)%Z ->
  total_target target ->
  Forall no_zero_block ops ->
  (exists w',
     sample nSamples w = (inr (self w'), w') /\
     Z.of_nat (length (samples (self w'))) =
       (Z.of_nat (length (samples (self w))) + nSamples)%Z) /\
  (exists w',
     script ops {| self := __init__ target initialState; rng := g |} = (inr tt, w') /\
     length (samples (self w')) = (1 + list_sum (map iterations_of ops))%nat).
Proof.
  intros Ht Hn Ht0 Hnz. split.
  - exists (snd (run_iterations (range_len nSamples) w)).
    split; [exact (sample_run nSamples w Ht)|].
    destruct (run_iterations_total (range_len nSamples) w Ht) as [_ H].
    rewrite H. unfold range_len. lia.
  - destruct (script_total ops {| self := __init__ target initialState; rng := g |}
                Ht0 Hnz) as (w' & Hrun & Hlen).
    exists w'. split; [exact Hrun | exact Hlen].
Qed.

(** ** The step size *)

Lemma Zrange_In (lo : Z) (n : nat) (e : Z) :
  (lo <= e < lo + Z.of_nat n)%Z -> In e (Zrange lo n).
Proof.
  intros H. unfold Zrange. apply in_map_iff.
  exists (Z.to_nat (e - lo)). split; [lia|].
  apply in_seq. lia.
Qed.

Lemma halving_table : forallb halving_exact (Zrange (-1073) 2097) = true.
Proof. vm_compute. reflexivity. Qed.

Lemma doubling_table : forallb doubling_exact (Zrange (-1074) 2097) = true.
Proof. vm_compute. reflexivity. Qed.

Lemma positive_table : forallb (fun e => 0 <? pow2 e) (Zrange (-1074) 2098) = true.
Proof. vm_compute. reflexivity. Qed.

Lemma pow2_half (e : Z) :
  (-1073 <= e <= 1023)%Z -> pow2 e / 2 = pow2 (e - 1).
Proof.
  intros H. apply Leibniz.eqb_spec.
  apply (proj1 (forallb_forall _ _) halving_table e).
  apply Zrange_In. lia.
Qed.

Lemma pow2_double (e : Z) :
  (-1074 <= e <= 1022)%Z -> pow2 e * 2 = pow2 (e + 1).
Proof.
  intros H. apply Leibniz.eqb_spec.
  apply (proj1 (forallb_forall _ _) doubling_table e).
  apply Zrange_In. lia.
Qed.

Lemma pow2_positive (e : Z) :
  (-1074 <= e <= 1023)%Z -> (0 <? pow2 e) = true.
Proof.
  intros H.
  apply (proj1 (forallb_forall _ _) positive_table e).
  apply Zrange_In. lia.
Qed.

Lemma ltb_leb_zero (s : float) : (0 <? s) = true -> (0 <=? s) = true.
Proof.
  rewrite ltb_spec, leb_spec. unfold SFltb, SFleb.
  destruct (SFcompare (Prim2SF 0) (Prim2SF s)) as [[| |]|]; congruence.
Qed.

Lemma step_value_nonneg (s : float) : step_value s -> (0 <=? s) = true.
Proof.
  intros [| |e He]; [reflexivity | reflexivity |].
  apply ltb_leb_zero, pow2_positive, He.
Qed.

Lemma step_value_tuned (rate s : float) : step_value s -> step_value (tuned rate s).
Proof.
  intros Hs. unfold tuned.
  destruct (rate <? 0.1); [|destruct (0.6 <? rate); [|exact Hs]].
  - destruct Hs as [| |e He].
    + change (0 / 2) with 0. constructor.
    + change (infinity / 2) with infinity. constructor.
    + destruct (Z.eq_dec e (-1074)) as [->|Hne].
      * change (pow2 (-1074) / 2) with 0. constructor.
      * rewrite pow2_half by lia. constructor. lia.
  - destruct Hs as [| |e He].
    + change (0 * 2) with 0. constructor.
    + change (infinity * 2) with infinity. constructor.
    + destruct (Z.eq_dec e 1023) as [->|Hne].
      * change (pow2 1023 * 2) with infinity. constructor.
      * rewrite pow2_double by lia. constructor. lia.
Qed.

Lemma step_above_mono (k k' : Z) (s : float) :
  (k <= k')%Z -> step_above k s -> step_above k' s.
Proof.
  intros Hk [Hs | (e & He & Hs)]; [left; exact Hs|].
  right. exists e. split; [lia | exact Hs].
Qed.

Lemma step_above_tuned (k : Z) (rate s : float) :
  (0 <= k < 1074)%Z -> step_above k s -> step_above (k + 1) (tuned rate s).
Proof.
  intros Hk Hs. unfold tuned.
  destruct (rate <? 0.1); [|destruct (0.6 <? rate)].
  - destruct Hs as [-> | (e & He & ->)].
    + left. reflexivity.
    + right. exists (e - 1)%Z. split; [lia|]. apply pow2_half. lia.
  - destruct Hs as [-> | (e & He & ->)].
    + left. reflexivity.
    + destruct (Z.eq_dec e 1023) as [->|Hne].
      * left. reflexivity.
      * right. exists (e + 1)%Z. split; [lia|]. apply pow2_double. lia.
  - apply (step_above_mono k); [lia | exact Hs].
Qed.

Lemma step_above_positive (k : Z) (s : float) :
  (k <= 1074)%Z -> step_above k s -> (0 <? s) = true.
Proof.
  intros Hk [-> | (e & He & ->)]; [reflexivity|].
  apply pow2_positive. lia.
Qed.

(** A loop of iterations leaves the step size alone, however it ends. *)
Lemma iterations_keep_stepSize {A} (f : A -> bool -> A) (k : nat) (a : A) (w : World) :
  stepSize (self (snd (for_range k (fun acc => b <- iteration ;; ret (f acc b)) a w))) =
  stepSize (self w).
Proof.
  pose proof (post_for_range (fun acc => b <- iteration ;; ret (f acc b))
    (fun _ w' => stepSize (self w') = stepSize (self w)) k
    (fun _ _ w' => stepSize (self w') = stepSize (self w)) a w) as H.
  unfold post at 2 in H.
  destruct (for_range k _ a w) as [[e|a'] w']; apply H; try reflexivity.
  - intros i a0 w0 _ Hs. apply post_bind.
    apply (post_weaken _ _ _ _ _ _ (iteration_frame w0)).
    + intros b w1 (_ & Hs1 & _). unfold post, ret. congruence.
    + intros e0 w1 [Hw _]. congruence.
  - intros i a0 w0 _ Hs. apply post_bind.
    apply (post_weaken _ _ _ _ _ _ (iteration_frame w0)).
    + intros b w1 (_ & Hs1 & _). unfold post, ret. congruence.
    + intros e0 w1 [Hw _]. congruence.
Qed.

(** [sample] never modifies the step size, returning or raising. *)
Lemma sample_keeps_stepSize (nSamples : Z) (w : World) :
  stepSize (self (snd (sample nSamples w))) = stepSize (self w).
Proof.
  assert (H : stepSize (self (snd (for_range (range_len nSamples) sample_body tt w)))
              = stepSize (self w))
    by exact (iterations_keep_stepSize (fun _ _ => tt) (range_len nSamples) tt w).
  unfold sample. unfold bind at 1.
  destruct (for_range (range_len nSamples) sample_body tt w) as [[e|[]] w'];
    exact H.
Qed.

(** A block retunes the step size once when it completes, and not at all
    when it raises. *)
Lemma adapt_block_stepSize (L : Z) (r : PyNum) (w : World) :
  post (adapt_block L r) w
    (fun _ w' => exists rate, stepSize (self w') = tuned rate (stepSize (self w)))
    (fun _ w' => stepSize (self w') = stepSize (self w)).
Proof.
  assert (H : stepSize (self (snd (for_range (range_len L) count_body 0%Z w)))
              = stepSize (self w))
    by exact (iterations_keep_stepSize (fun a b => (a + Z.b2z b)%Z) (range_len L) 0%Z w).
  unfold post, adapt_block. unfold bind at 1.
  destruct (for_range (range_len L) count_body 0%Z w) as [[e|a] w1];
    cbn [fst snd] in H; [exact H|].
  unfold bind at 1. unfold lift.
  destruct (int_truediv a L) as [e|rate]; [exact H|].
  unfold bind at 1. rewrite tune_run. unfold ret.
  exists rate. cbn. rewrite H. reflexivity.
Qed.

Lemma tuned_cases (rate s : float) :
  tuned rate s = s \/ tuned rate s = s / 2 \/ tuned rate s = s * 2.
Proof.
  unfold tuned. destruct (rate <? 0.1); [|destruct (0.6 <? rate)]; auto.
Qed.

(** A property of the step size that each retuning carries from index [i]
    to [i + 1] holds after [adapt] at the index advanced by the number of
    blocks. *)
Section StepInvariant.

Variable P : nat -> float -> Prop.
Hypothesis P_tuned : forall i rate s, P i s -> P (S i) (tuned rate s).
Hypothesis P_kept : forall i s, P i s -> P (S i) s.

Lemma invariant_later (d i : nat) (s : float) : P i s -> P (i + d) s.
Proof.
  induction d as [|d IH]; intros H.
  - rewrite Nat.add_0_r. exact H.
  - rewrite Nat.add_succ_r. apply P_kept, IH, H.
Qed.

Lemma adapt_loop_stepSize (blockLengths : list Z) :
  forall (k : nat) (r : PyNum) (w : World),
    P k (stepSize (self w)) ->
    P (k + length blockLengths)
      (stepSize (self (snd (for_each blockLengths adapt_block r w)))).
Proof.
  induction blockLengths as [|L rest IH]; intros k r w H.
  - cbn. rewrite Nat.add_0_r. exact H.
  - cbn [for_each length]. unfold bind at 1.
    pose proof (adapt_block_stepSize L r w) as Hb. unfold post in Hb.
    destruct (adapt_block L r w) as [[e|r'] w1]; cbn [snd].
    + rewrite Hb. apply invariant_later, H.
    + destruct Hb as [rate Hb]. rewrite Nat.add_succ_r, <- Nat.add_succ_l.
      apply IH. rewrite Hb. apply P_tuned, H.
Qed.

Lemma adapt_stepSize (blockLengths : list Z) (k : nat) (w : World) :
  P k (stepSize (self w)) ->
  P (k + length blockLengths) (stepSize (self (snd (adapt blockLengths w)))).
Proof.
  intros H.
  pose proof (adapt_loop_stepSize blockLengths k (PyInt 0) w H) as Hl.
  unfold adapt. unfold bind at 1.
  destruct (for_each blockLengths adapt_block (PyInt 0) w) as [[e|r] w1];
    exact Hl.
Qed.

End StepInvariant.

(** C9 (amended). In every reachable sampler the step size is [0.0], [inf]
    or a power of two, hence never negative and never NaN, and it is
    strictly positive as long as no more than 1074 blocks have been handed
    to [adapt]: [__init__] sets it to [1.0], [sample] leaves it as it is,
    and a block of [adapt] keeps, halves or doubles it once, in double
    arithmetic. *)
Theorem stepSize_of_reachable
  (k : nat) (m : Metropolis) (g : RandomState) (nSamples L : Z) (r : PyNum)
  (target : float -> PyExn + float) (initialState : float) :
  reachable k m ->
  step_value (stepSize m) /\
  (0 <=? stepSize m) = true /\
  ((k <= 1074)%nat -> (0 <? stepSize m) = true) /\
  stepSize (__init__ target initialState) = 1 /\
  stepSize (self (snd (sample nSamples {| self := m; rng := g |}))) = stepSize m /\
  (let s' := stepSize (self (snd (adapt_block L r {| self := m; rng := g |}))) in
   s' = stepSize m \/ s' = stepSize m / 2 \/ s' = stepSize m * 2).
Proof.
  intros Hreach.
  assert (Hinv : step_value (stepSize m) /\
                 ((k <= 1074)%nat -> step_above (Z.of_nat k) (stepSize m))).
  { clear g nSamples L r target initialState.
    induction Hreach as [target x0 | k m g n _ IH | k m g bl _ IH].
    - split.
      + change (stepSize (__init__ target x0)) with (pow2 0). constructor. lia.
      + intros _. right. exists 0%Z. split; [lia | reflexivity].
    - rewrite sample_keeps_stepSize. exact IH.
    - destruct IH as [IH1 IH2]. split.
      + apply (adapt_stepSize (fun _ s => step_value s)); auto.
        intros _ rate s. apply step_value_tuned.
      + apply (adapt_stepSize
                 (fun i s => (i <= 1074)%nat -> step_above (Z.of_nat i) s)
                 ); auto.
        * intros i rate s Hs Hi.
          replace (Z.of_nat (S i)) with (Z.of_nat i + 1)%Z by lia.
          apply step_above_tuned; [lia | apply Hs; lia].
        * intros i s Hs Hi.
          apply (step_above_mono (Z.of_nat i)); [lia | apply Hs; lia]. }
  destruct Hinv as [Hv Ha].
  split; [exact Hv|]. split; [apply step_value_nonneg, Hv|].
  split; [intros Hk; apply (step_above_positive (Z.of_nat k)); [lia | auto]|].
  split; [reflexivity|]. split; [apply sample_keeps_stepSize|].
  cbv zeta.
  pose proof (adapt_block_stepSize L r {| self := m; rng := g |}) as Hb.
  unfold post in Hb.
  destruct (adapt_block L r {| self := m; rng := g |}) as [[e|r'] w1]; cbn [snd].
  - left. exact Hb.
  - destruct Hb as [rate ->]. apply tuned_cases.
Qed.

(** ** Proposals that cannot be accepted *)

(** Nothing is below [lp - lc] when [lp] is [-inf] or NaN, or [lc] is
    [+inf] or NaN: the difference is [-inf] or NaN. *)
Lemma ltb_hopeless_ratio (x lp lc : float) :
  lp = neg_infinity \/ lp = nan \/ lc = infinity \/ lc = nan ->
  (x <? lp - lc) = false.
Proof.
  intros H. rewrite ltb_spec, sub_spec. unfold SFltb, SF64sub.
  destruct H as [-> | [-> | [-> | ->]]].
  - change (Prim2SF neg_infinity) with (S754_infinity true).
    destruct (Prim2SF lc) as [[|]|[|]| |[|] m e];
      destruct (Prim2SF x) as [[|]|[|]| |[|] m' e']; reflexivity.
  - change (Prim2SF nan) with S754_nan.
    destruct (Prim2SF x) as [[|]|[|]| |[|] m' e']; reflexivity.
  - change (Prim2SF infinity) with (S754_infinity false).
    destruct (Prim2SF lp) as [[|]|[|]| |[|] m e];
      destruct (Prim2SF x) as [[|]|[|]| |[|] m' e']; reflexivity.
  - change (Prim2SF nan) with S754_nan.
    destruct (Prim2SF lp) as [[|]|[|]| |[|] m e];
      destruct (Prim2SF x) as [[|]|[|]| |[|] m' e']; reflexivity.
Qed.


(** ** Properties kept by every call *)

Section Invariant.

Variable Inv : Metropolis -> Prop.
Hypothesis Inv_accept :
  forall m p, Inv m -> Inv (samples_append p (set_currentState p m)).
Hypothesis Inv_reject :
  forall m, Inv m -> Inv (samples_append (currentState m) m).

Lemma iteration_invariant (w : World) :
  Inv (self w) -> Inv (self (snd (iteration w))).
Proof.
  intros H. pose proof (iteration_cases w) as Hc. cbv zeta in Hc.
  destruct (iteration w) as [[e|[|]] w']; cbn [snd].
  - destruct Hc as [-> _]. exact H.
  - rewrite Hc. apply Inv_accept, H.
  - rewrite Hc. apply Inv_reject, H.
Qed.

Lemma loop_invariant {A} (f : A -> bool -> A) (n : nat) :
  forall (a : A) (w : World),
    Inv (self w) ->
    Inv (self (snd (for_range n (fun acc => b <- iteration ;; ret (f acc b)) a w))).
Proof.
  induction n as [|n IH]; intros a w H; [exact H|].
  cbn [for_range]. unfold bind at 1. unfold bind at 1.
  pose proof (iteration_invariant w H) as H1.
  destruct (iteration w) as [[e|b] w']; cbn [snd] in *; [exact H1|].
  unfold ret at 1. apply IH, H1.
Qed.

Lemma sample_invariant (nSamples : Z) (w : World) :
  Inv (self w) -> Inv (self (snd (sample nSamples w))).
Proof.
  intros H.
  assert (H1 : Inv (self (snd (for_range (range_len nSamples) sample_body tt w))))
    by exact (loop_invariant (fun _ _ => tt) (range_len nSamples) tt w H).
  unfold sample. unfold bind at 1.
  destruct (for_range (range_len nSamples) sample_body tt w) as [[e|[]] w'];
    exact H1.
Qed.

Hypothesis Inv_step : forall m s, Inv m -> Inv (set_stepSize s m).

Lemma adapt_block_invariant (L : Z) (r : PyNum) (w : World) :
  Inv (self w) -> Inv (self (snd (adapt_block L r w))).
Proof.
  intros H.
  assert (H1 : Inv (self (snd (for_range (range_len L) count_body 0%Z w))))
    by exact (loop_invariant (fun a b => (a + Z.b2z b)%Z) (range_len L) 0%Z w H).
  unfold adapt_block. unfold bind at 1.
  destruct (for_range (range_len L) count_body 0%Z w) as [[e|a] w1];
    cbn [snd] in H1; [exact H1|].
  unfold bind at 1. unfold lift.
  destruct (int_truediv a L) as [e|rate]; [exact H1|].
  unfold bind at 1. rewrite tune_run. unfold ret. cbn [snd self].
  apply Inv_step, H1.
Qed.

Lemma adapt_loop_invariant (blockLengths : list Z) :
  forall (r : PyNum) (w : World),
    Inv (self w) ->
    Inv (self (snd (for_each blockLengths adapt_block r w))).
Proof.
  induction blockLengths as [|L rest IH]; intros r w H; [exact H|].
  cbn [for_each]. unfold bind at 1.
  pose proof (adapt_block_invariant L r w H) as H1.
  destruct (adapt_block L r w) as [[e|r'] w1]; cbn [snd] in *; [exact H1|].
  apply IH, H1.
Qed.

Hypothesis Inv_rate : forall m r, Inv m -> Inv (set_acceptanceRate r m).

Lemma adapt_invariant (blockLengths : list Z) (w : World) :
  Inv (self w) -> Inv (self (snd (adapt blockLengths w))).
Proof.
  intros H.
  pose proof (adapt_loop_invariant blockLengths (PyInt 0) w H) as H1.
  unfold adapt. unfold bind at 1.
  destruct (for_each blockLengths adapt_block (PyInt 0) w) as [[e|r] w1];
    cbn [snd] in *; [exact H1|].
  apply Inv_rate, H1.
Qed.

Hypothesis Inv_init : forall target initialState, Inv (__init__ target initialState).

Lemma reachable_invariant (k : nat) (m : Metropolis) : reachable k m -> Inv m.
Proof.
  induction 1 as [target x0 | k m g n _ IH | k m g bl _ IH].
  - apply Inv_init.
  - apply sample_invariant, IH.
  - apply adapt_invariant, IH.
Qed.

End Invariant.

(** X2. In every reachable sampler the history is not empty and its last
    entry is the current state: the seed at first, then whatever the latest
    completed iteration appended.  In particular [summary] never sees an
    empty history. *)
Theorem history_ends_at_currentState (k : nat) (m : Metropolis) :
  reachable k m ->
  (exists h, samples m = h ++ [currentState m]) /\
  samples m <> [] /\
  In (currentState m) (samples m).
Proof.
  intros Hr.
  assert (H : exists h, samples m = h ++ [currentState m]).
  { apply (reachable_invariant
             (fun m => exists h, samples m = h ++ [currentState m])) with (k := k);
      try exact Hr.
    - intros m0 p _. exists (samples m0). reflexivity.
    - intros m0 _. exists (samples m0). reflexivity.
    - intros m0 s Hm. exact Hm.
    - intros m0 r Hm. exact Hm.
    - intros target x0. exists []. reflexivity. }
  split; [exact H|]. destruct H as [h Hh]. split.
  - rewrite Hh. destruct h; discriminate.
  - rewrite Hh. apply in_or_app. right. left. reflexivity.
Qed.

(** X3. Whether it returns or raises, [sample] only appends: the history
    before the call is a prefix of the history after it, by no more than
    [nSamples] entries, and [logTarget], [stepSize] and [acceptanceRate]
    are what they were. *)
Theorem sample_only_appends (nSamples : Z) (w : World) :
  let m' := self (snd (sample nSamples w)) in
  logTarget m' = logTarget (self w) /\
  stepSize m' = stepSize (self w) /\
  acceptanceRate m' = acceptanceRate (self w) /\
  exists t, samples m' = samples (self w) ++ t /\
            (length t <= range_len nSamples)%nat.
Proof.
  intros m'. subst m'.
  assert (H : logTarget (self (snd (sample nSamples w))) = logTarget (self w) /\
              stepSize (self (snd (sample nSamples w))) = stepSize (self w) /\
              acceptanceRate (self (snd (sample nSamples w))) = acceptanceRate (self w) /\
              exists t, samples (self (snd (sample nSamples w))) = samples (self w) ++ t).
  { apply (sample_invariant
      (fun m => logTarget m = logTarget (self w) /\
                stepSize m = stepSize (self w) /\
                acceptanceRate m = acceptanceRate (self w) /\
                exists t, samples m = samples (self w) ++ t)).
    - intros m p (Hl & Hs & Ha & t & Ht). cbn. repeat split; auto.
      exists (t ++ [p]). rewrite Ht, app_assoc. reflexivity.
    - intros m (Hl & Hs & Ha & t & Ht). cbn. repeat split; auto.
      exists (t ++ [currentState m]). rewrite Ht, app_assoc. reflexivity.
    - repeat split. exists []. rewrite app_nil_r. reflexivity. }
  destruct H as (Hl & Hs & Ha & t & Ht).
  repeat split; auto. exists t. split; [exact Ht|].
  destruct (sample_history_any_outcome nSamples w) as [Hn Hd]. cbv zeta in *.
  rewrite Ht, length_app in Hn. lia.
Qed.

(** [adapt] is its loop over the blocks, then the assignment of the rate. *)
Lemma adapt_unfold (blockLengths : list Z) (w : World) :
  adapt blockLengths w =
    match for_each blockLengths adapt_block (PyInt 0) w with
    | (inr r, w1) =>
        (inr (set_acceptanceRate (Some r) (self w1)), with_rate (Some r) w1)
    | (inl e, w1) => (inl e, w1)
    end.
Proof.
  unfold adapt. unfold bind at 1.
  destruct (for_each blockLengths adapt_block (PyInt 0) w) as [[e|r] w1];
    reflexivity.
Qed.

(** X4. Whether it returns or raises, [adapt] only appends to the history
    and keeps [logTarget]; a call that raises leaves [acceptanceRate] as it
    was, and a call that returns leaves a number there, never [None]. *)
Theorem adapt_only_appends (blockLengths : list Z) (w : World) :
  let r := adapt blockLengths w in
  logTarget (self (snd r)) = logTarget (self w) /\
  (exists t, samples (self (snd r)) = samples (self w) ++ t) /\
  (forall e, fst r = inl e ->
     acceptanceRate (self (snd r)) = acceptanceRate (self w)) /\
  (forall m, fst r = inr m ->
     m = self (snd r) /\ exists x, acceptanceRate m = Some x).
Proof.
  intros r. subst r.
  assert (H : logTarget (self (snd (for_each blockLengths adapt_block (PyInt 0) w)))
                = logTarget (self w) /\
              acceptanceRate (self (snd (for_each blockLengths adapt_block (PyInt 0) w)))
                = acceptanceRate (self w) /\
              exists t, samples (self (snd (for_each blockLengths adapt_block (PyInt 0) w)))
                        = samples (self w) ++ t).
  { apply (adapt_loop_invariant
      (fun m => logTarget m = logTarget (self w) /\
                acceptanceRate m = acceptanceRate (self w) /\
                exists t, samples m = samples (self w) ++ t)).
    - intros m p (Hl & Ha & t & Ht). cbn. repeat split; auto.
      exists (t ++ [p]). rewrite Ht, app_assoc. reflexivity.
    - intros m (Hl & Ha & t & Ht). cbn. repeat split; auto.
      exists (t ++ [currentState m]). rewrite Ht, app_assoc. reflexivity.
    - intros m s Hm. exact Hm.
    - repeat split. exists []. rewrite app_nil_r. reflexivity. }
  destruct H as (Hl & Ha & t & Ht).
  rewrite adapt_unfold.
  destruct (for_each blockLengths adapt_block (PyInt 0) w) as [[e|x] w1];
    cbn [fst snd self] in *.
  - split; [exact Hl|]. split; [exists t; exact Ht|].
    split; [intros _ _; exact Ha | discriminate].
  - cbn. split; [exact Hl|]. split; [exists t; exact Ht|].
    split; [discriminate|]. intros m Hm. injection Hm as <-.
    split; [reflexivity | exists x; reflexivity].
Qed.

(** ** Calls in sequence *)

(** [sample] is its loop, then the return of the sampler. *)
Lemma sample_unfold (nSamples : Z) (w : World) :
  sample nSamples w =
    match for_range (range_len nSamples) sample_body tt w with
    | (inr _, w1) => (inr (self w1), w1)
    | (inl e, w1) => (inl e, w1)
    end.
Proof.
  unfold sample. unfold bind at 1.
  destruct (for_range (range_len nSamples) sample_body tt w) as [[e|[]] w1];
    reflexivity.
Qed.

(** X5. Sampling in two calls is sampling in one: for counts [a, b >= 0],
    [sample(a)] followed by [sample(b)] gives the same result and leaves the
    same sampler and generator as [sample(a + b)], also when an iteration
    raises on the way. *)
Theorem sample_twice (a b : Z) (w : World) :
  (0 <= a)%Z ->
  (0 <= b)%Z ->
  bind (sample a) (fun _ => sample b) w = sample (a + b) w.
Proof.
  intros Ha Hb. unfold bind. rewrite (sample_unfold a), (sample_unfold (a + b)).
  replace (range_len (a + b)) with (range_len a + range_len b)%nat
    by (unfold range_len; lia).
  rewrite for_range_add. unfold bind.
  destruct (for_range (range_len a) sample_body tt w) as [[e|[]] w1];
    [reflexivity|].
  apply sample_unfold.
Qed.

(** Nothing an iteration does looks at [acceptanceRate]: run from a world
    where it was overwritten, the iteration decides the same and differs
    only by that field. *)
Lemma iteration_rate_blind (a : option PyNum) (w : World) :
  iteration (with_rate a w) = (fst (iteration w), with_rate a (snd (iteration w))).
Proof.
  rewrite !iteration_unfold. cbn [with_rate self rng set_acceptanceRate
    currentState stepSize].
  destruct (np_random_normal (currentState (self w)) (stepSize (self w)) (rng w))
    as [p g]. cbn [fst snd].
  unfold __accept, bind, call_logTarget, read, draw_uniform, update, ret.
  cbn [self rng logTarget currentState set_acceptanceRate].
  destruct (logTarget (self w) p) as [e|lp]; [reflexivity|].
  destruct (logTarget (self w) (currentState (self w))) as [e|lc]; [reflexivity|].
  destruct (np_random_uniform g) as [u g'].
  destruct (np_log u <? lp - lc); reflexivity.
Qed.

Lemma count_loop_step (n : nat) (acc : Z) (w : World) :
  for_range (S n) count_body acc w =
    match iteration w with
    | (inr b, w1) => for_range n count_body (acc + Z.b2z b)%Z w1
    | (inl e, w1) => (inl e, w1)
    end.
Proof.
  cbn [for_range]. unfold bind at 1. unfold count_body at 1. unfold bind at 1.
  destruct (iteration w) as [[e|b] w1]; reflexivity.
Qed.

Lemma adapt_block_unfold (L : Z) (r : PyNum) (w : World) :
  adapt_block L r w =
    match for_range (range_len L) count_body 0%Z w with
    | (inr n, w1) =>
        match int_truediv n L with
        | inr rate =>
            (inr (PyFloat rate),
             {| self := set_stepSize (tuned rate (stepSize (self w1))) (self w1);
                rng := rng w1 |})
        | inl e => (inl e, w1)
        end
    | (inl e, w1) => (inl e, w1)
    end.
Proof.
  unfold adapt_block. unfold bind at 1.
  destruct (for_range (range_len L) count_body 0%Z w) as [[e|n] w1];
    [reflexivity|].
  unfold bind at 1. unfold lift.
  destruct (int_truediv n L) as [e|rate]; [reflexivity|].
  unfold bind. rewrite tune_run. reflexivity.
Qed.

Lemma count_loop_rate_blind (a : option PyNum) (n : nat) :
  forall (acc : Z) (w : World),
    for_range n count_body acc (with_rate a w) =
      (fst (for_range n count_body acc w),
       with_rate a (snd (for_range n count_body acc w))).
Proof.
  induction n as [|n IH]; intros acc w; [reflexivity|].
  rewrite !count_loop_step, iteration_rate_blind.
  destruct (iteration w) as [[e|b] w1]; [reflexivity|].
  cbn [fst snd]. apply IH.
Qed.

Lemma adapt_block_rate_blind (a : option PyNum) (L : Z) (r : PyNum) (w : World) :
  adapt_block L r (with_rate a w) =
    (fst (adapt_block L r w), with_rate a (snd (adapt_block L r w))).
Proof.
  rewrite !adapt_block_unfold, count_loop_rate_blind.
  destruct (for_range (range_len L) count_body 0%Z w) as [[e|n] w1];
    [reflexivity|].
  cbn [fst snd]. destruct (int_truediv n L) as [e|rate]; reflexivity.
Qed.

Lemma adapt_loop_rate_blind (a : option PyNum) (blockLengths : list Z) :
  forall (r : PyNum) (w : World),
    for_each blockLengths adapt_block r (with_rate a w) =
      (fst (for_each blockLengths adapt_block r w),
       with_rate a (snd (for_each blockLengths adapt_block r w))).
Proof.
  induction blockLengths as [|L rest IH]; intros r w; [reflexivity|].
  cbn [for_each]. unfold bind. rewrite adapt_block_rate_blind.
  destruct (adapt_block L r w) as [[e|r'] w1]; [reflexivity|].
  cbn [fst snd]. apply IH.
Qed.

(** With a block to run, the loop of [adapt] does not depend on what its
    accumulator starts with. *)
Lemma adapt_loop_start (blockLengths : list Z) (r r' : PyNum) (w : World) :
  blockLengths <> [] ->
  for_each blockLengths adapt_block r w = for_each blockLengths adapt_block r' w.
Proof.
  destruct blockLengths as [|L rest]; [congruence|]. intros _. reflexivity.
Qed.

(** X6. Adapting in two calls is adapting in one, provided the second call
    has a block: when [adapt(xs + ys)] returns and [ys] is not empty,
    [adapt(xs)] followed by [adapt(ys)] returns the same sampler and leaves
    the same generator -- the rate the first call records is overwritten
    by the second. *)
Theorem adapt_twice (xs ys : list Z) (w : World) (m : Metropolis) :
  ys <> [] ->
  fst (adapt (xs ++ ys) w) = inr m ->
  bind (adapt xs) (fun _ => adapt ys) w = adapt (xs ++ ys) w.
Proof.
  intros Hys. unfold bind at 1.
  rewrite (adapt_unfold xs), (adapt_unfold (xs ++ ys)), for_each_app.
  unfold bind at 1 2.
  destruct (for_each xs adapt_block (PyInt 0) w) as [[e|r1] w1]; [reflexivity|].
  rewrite adapt_unfold, adapt_loop_rate_blind.
  rewrite (adapt_loop_start ys r1 (PyInt 0) w1 Hys).
  destruct (for_each ys adapt_block (PyInt 0) w1) as [[e|r2] w2]; cbn [fst snd].
  - discriminate.
  - intros _. reflexivity.
Qed.

(** ** Where exceptions come from *)

Lemma raises_at_target (m : Metropolis) (p : float) (e : PyExn) :
  raises_at m p e -> exists x, logTarget m x = inl e.
Proof.
  intros [H | [_ H]]; eauto.
Qed.

Lemma loop_error {A} (f : A -> bool -> A) (n : nat) :
  forall (a : A) (w : World) (e : PyExn),
    fst (for_range n (fun acc => b <- iteration ;; ret (f acc b)) a w) = inl e ->
    exists x, logTarget (self w) x = inl e.
Proof.
  induction n as [|n IH]; intros a w e; [discriminate|].
  cbn [for_range]. unfold bind at 1. unfold bind at 1.
  pose proof (iteration_frame w) as H. unfold post in H.
  destruct (iteration w) as [[e'|b] w1]; cbn [fst].
  - intros [= ->]. destruct H as [_ [p Hp]]. exact (raises_at_target _ _ _ Hp).
  - unfold ret at 1. intros He. destruct H as [Hl _].
    destruct (IH _ _ _ He) as [x Hx]. exists x. rewrite <- Hl. exact Hx.
Qed.

(** X7. [sample] raises nothing of its own: an exception that comes out of
    it is one the log-target raised at some state. *)
Theorem sample_raises_only_target (nSamples : Z) (w : World) (e : PyExn) :
  fst (sample nSamples w) = inl e ->
  exists x, logTarget (self w) x = inl e.
Proof.
  rewrite sample_unfold. intros H.
  assert (Hloop : fst (for_range (range_len nSamples) sample_body tt w) = inl e ->
                  exists x, logTarget (self w) x = inl e)
    by exact (loop_error (fun _ _ => tt) (range_len nSamples) tt w e).
  apply Hloop.
  destruct (for_range (range_len nSamples) sample_body tt w) as [[e'|[]] w1];
    cbn [fst] in *; [congruence | discriminate].
Qed.

Lemma adapt_block_error (L : Z) (r : PyNum) (w : World) (e : PyExn) :
  fst (adapt_block L r w) = inl e ->
  (e = ZeroDivisionError /\ L = 0%Z) \/ exists x, logTarget (self w) x = inl e.
Proof.
  rewrite adapt_block_unfold.
  assert (Hloop : fst (for_range (range_len L) count_body 0%Z w) = inl e ->
                  exists x, logTarget (self w) x = inl e)
    by exact (loop_error (fun a b => (a + Z.b2z b)%Z) (range_len L) 0%Z w e).
  destruct (for_range (range_len L) count_body 0%Z w) as [[e'|n] w1]; cbn [fst] in *.
  - intros [= ->]. right. exact (Hloop eq_refl).
  - unfold int_truediv. destruct (Z.eqb_spec L 0) as [->|_].
    + intros [= <-]. left. split; reflexivity.
    + discriminate.
Qed.

(** X8. [adapt] raises [ZeroDivisionError] for a block of length zero and
    otherwise nothing of its own: an exception that comes out of it is
    either that one, with a zero among the block lengths, or one the
    log-target raised at some state. *)
Theorem adapt_raises_only_zero_or_target
  (blockLengths : list Z) (w : World) (e : PyExn) :
  fst (adapt blockLengths w) = inl e ->
  (e = ZeroDivisionError /\ In 0%Z blockLengths) \/
  exists x, logTarget (self w) x = inl e.
Proof.
  rewrite adapt_unfold.
  assert (H : forall (bl : list Z) (r : PyNum) (w0 : World),
             logTarget (self w0) = logTarget (self w) ->
             fst (for_each bl adapt_block r w0) = inl e ->
             (e = ZeroDivisionError /\ In 0%Z bl) \/
             exists x, logTarget (self w) x = inl e).
  { induction bl as [|L rest IH]; intros r w0 Hl; [discriminate|].
    cbn [for_each]. unfold bind at 1.
    pose proof (adapt_block_error L r w0 e) as Hb.
    pose proof (adapt_block_invariant (fun m => logTarget m = logTarget (self w))
                  (fun m p H => H) (fun m H => H) (fun m s H => H) L r w0 Hl) as Hl'.
    destruct (adapt_block L r w0) as [[e'|r'] w1]; cbn [fst snd] in *.
    - intros [= ->]. destruct (Hb eq_refl) as [[-> ->] | [x Hx]].
      + left. split; [reflexivity | left; reflexivity].
      + right. exists x. rewrite <- Hl. exact Hx.
    - intros He. destruct (IH r' w1 Hl' He) as [[-> Hin] | Hx].
      + left. split; [reflexivity | right; exact Hin].
      + right. exact Hx. }
  specialize (H blockLengths (PyInt 0) w eq_refl).
  destruct (for_each blockLengths adapt_block (PyInt 0) w) as [[e'|r] w1];
    cbn [fst] in *; [|discriminate].
  intros [= ->]. exact (H eq_refl).
Qed.

(** ** A chain that cannot move *)

Lemma sample_loop_step (n : nat) (w : World) :
  for_range (S n) sample_body tt w =
    match iteration w with
    | (inr _, w1) => for_range n sample_body tt w1
    | (inl e, w1) => (inl e, w1)
    end.
Proof.
  cbn [for_range]. unfold bind at 1. unfold sample_body at 1. unfold bind at 1.
  destruct (iteration w) as [[e|b] w1]; reflexivity.
Qed.

(** X9. When the log-density of the current state is [+inf] or NaN, no
    proposal is ever accepted: whatever the generator draws and whether
    [sample] returns or raises, the current state after the call is the
    same, and the entries added to the history are copies of it. *)
Theorem stuck_chain_stays (nSamples : Z) (w : World) (lc : float) :
  logTarget (self w) (currentState (self w)) = inr lc ->
  lc = infinity \/ lc = nan ->
  let m' := self (snd (sample nSamples w)) in
  currentState m' = currentState (self w) /\
  exists j, (j <= range_len nSamples)%nat /\
            samples m' = samples (self w) ++ repeat (currentState (self w)) j.
Proof.
  intros Hc Hbad m'. subst m'. rewrite sample_unfold.
  assert (H : forall (n : nat) (w0 : World),
             logTarget (self w0) = logTarget (self w) ->
             currentState (self w0) = currentState (self w) ->
             currentState (self (snd (for_range n sample_body tt w0)))
               = currentState (self w) /\
             exists j, (j <= n)%nat /\
               samples (self (snd (for_range n sample_body tt w0)))
                 = samples (self w0) ++ repeat (currentState (self w)) j).
  { induction n as [|n IH]; intros w0 Hl Hcur.
    - cbn. split; [exact Hcur|]. exists O. split; [lia|].
      cbn. rewrite app_nil_r. reflexivity.
    - rewrite sample_loop_step, iteration_unfold.
      set (d := np_random_normal (currentState (self w0)) (stepSize (self w0)) (rng w0)).
      set (w0' := {| self := self w0; rng := snd d |}).
      destruct (logTarget (self w0) (fst d)) as [e|lp] eqn:Hp.
      + rewrite (accept_raises (fst d) w0' e (or_introl Hp)). cbn.
        split; [exact Hcur|]. exists O. split; [lia|].
        cbn. rewrite app_nil_r. reflexivity.
      + assert (Hc0 : logTarget (self w0') (currentState (self w0')) = inr lc).
        { cbn. rewrite Hl, Hcur. exact Hc. }
        rewrite (accept_run (fst d) w0' lp lc Hp Hc0).
        destruct (np_random_uniform (rng w0')) as [u g].
        rewrite ltb_hopeless_ratio by (right; right; exact Hbad).
        destruct (IH {| self := samples_append (currentState (self w0')) (self w0');
                        rng := g |}) as (IH1 & j & Hj & IH2); [exact Hl | exact Hcur |].
        split; [exact IH1|]. exists (S j). split; [lia|].
        rewrite IH2. cbn [self samples samples_append repeat].
        rewrite <- app_assoc. cbn [app]. subst w0'. cbn [self].
        rewrite Hcur. reflexivity. }
  specialize (H (range_len nSamples) w eq_refl eq_refl).
  destruct (for_range (range_len nSamples) sample_body tt w) as [[e|[]] w1];
    exact H.
Qed.

(** ** Adaptation, block by block *)










End Sampler.

(** ** Signal detection *)

Section Detection.

Variable norm_cdf : float -> float.
Variable norm_ppf : float -> float.
Variable RandomState : Type.
Variable np_random_binomial :
  Z -> float -> RandomState -> (PyExn + Z) * RandomState.

Lemma simulate_loop_trials (dPrime : float) (signalCount noiseCount : Z)
  (criteriaList : list float) :
  forall (sdtList l : list SignalDetection) (g g' : RandomState),
    simulate_loop norm_cdf RandomState np_random_binomial dPrime criteriaList
      signalCount noiseCount sdtList g = (inr l, g') ->
    Forall (trials signalCount noiseCount) sdtList ->
    length l = (length sdtList + length criteriaList)%nat /\
    Forall (trials signalCount noiseCount) l.
Proof.
  induction criteriaList as [|criteria rest IH]; intros sdtList l g g' Hrun Hall.
  - cbn in Hrun. injection Hrun as <- _. split; [cbn; lia | exact Hall].
  - cbn [simulate_loop] in Hrun. cbv zeta in Hrun.
    destruct (np_random_binomial signalCount _ g) as [[e|h] g1]; [discriminate|].
    destruct (np_random_binomial noiseCount _ g1) as [[e|f] g2]; [discriminate|].
    destruct (IH _ _ _ _ Hrun) as [Hlen Hl].
    + apply Forall_app. split; [exact Hall|].
      constructor; [|constructor]. unfold trials. cbn. lia.
    + split; [|exact Hl]. rewrite Hlen, length_app. cbn. lia.
Qed.

(** X10. When [simulate] returns, it returns one object per criterion, and
    every object has exactly [signalCount] signal trials (hits + misses) and
    [noiseCount] noise trials (false alarms + correct rejections), whatever
    the binomial draws were. *)
Theorem simulate_conserves_trials
  (dPrime : float) (criteriaList : list float) (signalCount noiseCount : Z)
  (g g' : RandomState) (l : list SignalDetection) :
  simulate norm_cdf RandomState np_random_binomial dPrime criteriaList
    signalCount noiseCount g = (inr l, g') ->
  length l = length criteriaList /\
  Forall (trials signalCount noiseCount) l.
Proof.
  intros Hrun.
  destruct (simulate_loop_trials dPrime signalCount noiseCount criteriaList
              [] l g g' Hrun (Forall_nil _)) as [Hlen Hl].
  split; [exact Hlen | exact Hl].
Qed.

(** The two rates divide by the numbers of trials. *)
Lemma rates_of_trials (signalCount noiseCount : Z) (s : SignalDetection) :
  trials signalCount noiseCount s ->
  hit_rate s = int_truediv (hits s) signalCount /\
  false_alarm_rate s = int_truediv (falseAlarms s) noiseCount.
Proof.
  intros [H1 H2]. unfold hit_rate, false_alarm_rate. rewrite H1, H2. split; reflexivity.
Qed.

(** X11. On an object [simulate] returned, [d_prime] and [criterion] return
    a number when both trial counts are nonzero, and raise
    [ZeroDivisionError] when [signalCount] or [noiseCount] is zero. *)
Theorem simulated_d_prime
  (dPrime : float) (criteriaList : list float) (signalCount noiseCount : Z)
  (g g' : RandomState) (l : list SignalDetection) (s : SignalDetection) :
  simulate norm_cdf RandomState np_random_binomial dPrime criteriaList
    signalCount noiseCount g = (inr l, g') ->
  In s l ->
  (signalCount <> 0%Z /\ noiseCount <> 0%Z ->
     exists d c, d_prime norm_ppf s = inr d /\ criterion norm_ppf s = inr c) /\
  (signalCount = 0%Z \/ noiseCount = 0%Z ->
     d_prime norm_ppf s = inl ZeroDivisionError /\
     criterion norm_ppf s = inl ZeroDivisionError).
Proof.
  intros Hrun Hin.
  destruct (simulate_loop_trials dPrime signalCount noiseCount criteriaList
              [] l g g' Hrun (Forall_nil _)) as [_ Hl].
  pose proof (proj1 (Forall_forall _ _) Hl s Hin) as Ht.
  destruct (rates_of_trials _ _ _ Ht) as [Hh Hf].
  unfold d_prime, criterion. rewrite Hh, Hf. unfold int_truediv. split.
  - intros [Hs Hn].
    destruct (Z.eqb_spec signalCount 0) as [?|_]; [contradiction|].
    destruct (Z.eqb_spec noiseCount 0) as [?|_]; [contradiction|].
    eexists. eexists. split; reflexivity.
  - intros [-> | ->].
    + split; reflexivity.
    + destruct (Z.eqb_spec signalCount 0) as [?|_]; split; reflexivity.
Qed.

End Detection.

(** X12. The counts of two objects add and scale field by field:
    [__add__] is commutative and associative, [__mul__] by an [int]
    distributes over it, and the numbers of trials add and scale with
    them. *)
Theorem counts_add_and_scale (a b c : SignalDetection) (j k : Z) :
  __add__ a b = __add__ b a /\
  __add__ (__add__ a b) c = __add__ a (__add__ b c) /\
  __mul__ (__add__ a b) k = __add__ (__mul__ a k) (__mul__ b k) /\
  __mul__ (__mul__ a j) k = __mul__ a (j * k) /\
  (hits (__add__ a b) + misses (__add__ a b) =
     (hits a + misses a) + (hits b + misses b))%Z /\
  (hits (__mul__ a k) + misses (__mul__ a k) = (hits a + misses a) * k)%Z.
Proof.
  destruct a, b, c. unfold __add__, __mul__. cbn.
  repeat split; try (f_equal; ring); ring.
Qed.

Arguments mkWorld {RandomState} _ _.
Arguments self {RandomState} _.
Arguments rng {RandomState} _.

(** ** Runs on the concrete collaborators *)

Abbreviation tape_world := (@mkWorld Tape).
Abbreviation tape_accept := (__accept Tape tape_uniform log_table).
Abbreviation tape_iteration := (iteration Tape tape_normal tape_uniform log_table).
Abbreviation tape_adapt := (adapt Tape tape_normal tape_uniform log_table).
Abbreviation tape_sample := (sample Tape tape_normal tape_uniform log_table).
Abbreviation tape_script := (script Tape tape_normal tape_uniform log_table).
Abbreviation tape_blocks := (spec_blocks Tape tape_normal tape_uniform log_table).
Abbreviation tape_reachable := (reachable Tape tape_normal tape_uniform log_table).

Lemma std_normal_total : total_target std_normal.
Proof. intros x. eexists. reflexivity. Defined.

(** From state [0.0] of the standard normal, the proposal [0.5] with the
    uniform draw [0.5] is accepted: [log 0.5 < -0.125]. *)
Lemma accept_iff_log_u_below_ratio_witness :
  let w := tape_world (__init__ std_normal 0) [0.5] in
  let r := tape_accept 0.5 w in
  (fst r = inr true <-> (log_table 0.5 <? -0.125 - -0) = true) /\
  (fst r = inr false <-> (log_table 0.5 <? -0.125 - -0) = false) /\
  (fst r = inr true ->
     currentState (self (snd r)) = 0.5 /\
     samples (self (snd r)) = [0; 0.5]).
Proof.
  exact (accept_iff_log_u_below_ratio Tape tape_uniform log_table 0.5
           (tape_world (__init__ std_normal 0) [0.5]) (-0.125) (-0)
           eq_refl eq_refl).
Defined.

(** The proposal [3.0] with the uniform draw [0.5] is rejected, and [0.0]
    is appended again. *)
Lemma rejection_repeats_current_witness :
  let w := tape_world (__init__ std_normal 0) [3; 0.5] in
  let m' := self (snd (tape_iteration w)) in
  fst (tape_iteration w) = inr false /\
  (length (samples m') = 2%nat /\
   (false = false -> currentState m' = 0 /\ samples m' = [0; 0])).
Proof.
  split; [reflexivity|].
  exact (rejection_repeats_current Tape tape_normal tape_uniform log_table
           (tape_world (__init__ std_normal 0) [3; 0.5]) false eq_refl).
Defined.

(** Two blocks and a sampling call after construction, then two more
    samples. *)
Lemma history_length_witness :
  let w := tape_world (__init__ std_normal 0) [3; 0.5; 0.5; 0.5] in
  let ops := [OpAdapt [2; 1]%Z; OpSample 3] in
  (exists w',
     tape_sample 2 w = (inr (self w'), w') /\
     Z.of_nat (length (samples (self w'))) =
       (Z.of_nat (length (samples (self w))) + 2)%Z) /\
  (exists w',
     tape_script ops (tape_world (__init__ std_normal 0) [3; 0.5]) = (inr tt, w') /\
     length (samples (self w')) = (1 + list_sum (map iterations_of ops))%nat).
Proof.
  apply (history_length Tape tape_normal tape_uniform log_table
           (tape_world (__init__ std_normal 0) [3; 0.5; 0.5; 0.5]) 2
           std_normal 0 [3; 0.5] [OpAdapt [2; 1]%Z; OpSample 3]).
  - exact std_normal_total.
  - lia.
  - exact std_normal_total.
  - repeat constructor; cbn; lia.
Defined.


(** The same run, evaluated: rates [1.0] then [0.0], the step size
    doubled and then halved, the last rate recorded. *)
Example adapt_two_blocks :
  let r := tape_adapt [2; 2]%Z
             (tape_world (__init__ std_normal 0)
                [0.5; 0.5; 0.25; 0.5; 3; 0.5; 3; 0.5]) in
  fst (tape_blocks [2; 2]%Z
         (tape_world (__init__ std_normal 0)
            [0.5; 0.5; 0.25; 0.5; 3; 0.5; 3; 0.5])) = [1; 0] /\
  samples (self (snd r)) = [0; 0.5; 0.75; 0.75; 0.75] /\
  stepSize (self (snd r)) = 1 /\
  acceptanceRate (self (snd r)) = Some (PyFloat 0).
Proof. vm_compute. repeat split. Qed.

(** The step-size response of a single block: all accepted, it doubles;
    all rejected, it halves; one of two accepted, it stays. *)
Example adapt_step_response :
  stepSize (self (snd (tape_adapt [2]%Z
     (tape_world (__init__ std_normal 0) [0.5; 0.5; 0.25; 0.5])))) = 2 /\
  stepSize (self (snd (tape_adapt [2]%Z
     (tape_world (__init__ std_normal 0) [3; 0.5; 3; 0.5])))) = 0.5 /\
  stepSize (self (snd (tape_adapt [2]%Z
     (tape_world (__init__ std_normal 0) [0.5; 0.5; 3; 0.5])))) = 1.
Proof. vm_compute. repeat split. Qed.

(** After [adapt([])] a fresh sampler's [acceptanceRate] is no longer
    [None]: it is the integer [0]. *)
Lemma adapt_empty_counterexample :
  let w := tape_world (__init__ std_normal 0) [] in
  acceptanceRate (self w) = None /\
  acceptanceRate (self (snd (tape_adapt [] w))) = Some (PyInt 0).
Proof. split; reflexivity. Qed.

(** [adapt([2, 0, 2])] raises at the zero block, after the first block
    has put two entries in the history and doubled the step size. *)
Lemma adapt_zero_block_counterexample :
  let w := tape_world (__init__ std_normal 0) [0.5; 0.5; 0.25; 0.5; 3; 0.5; 3; 0.5] in
  let r := tape_adapt [2; 0; 2]%Z w in
  fst r = inl ZeroDivisionError /\
  samples (self w) = [0] /\
  samples (self (snd r)) = [0; 0.5; 0.75] /\
  stepSize (self w) = 1 /\
  stepSize (self (snd r)) = 2.
Proof. vm_compute. repeat split. Qed.

(** The same call, split at the zero block: one block of two accepted
    proposals has run, two entries are in the history and the step size
    has doubled. *)
Lemma adapt_zero_block_raises_witness :
  let w := tape_world (__init__ std_normal 0) [0.5; 0.5; 0.25; 0.5; 3; 0.5; 3; 0.5] in
  let w1 := tape_world
              {| logTarget := std_normal; currentState := 0.75; stepSize := 2;
                 samples := [0; 0.5; 0.75]; acceptanceRate := None |}
              [3; 0.5; 3; 0.5] in
  tape_adapt ([2] ++ 0 :: [2])%Z w = (inl ZeroDivisionError, w1) /\
  3%nat = (1 + list_sum (map range_len [2]%Z))%nat /\
  None = acceptanceRate (self w) /\
  2 = 1 * 2.
Proof.
  apply (adapt_zero_block_raises Tape tape_normal tape_uniform log_table
           [2]%Z [2]%Z
           (tape_world (__init__ std_normal 0)
              [0.5; 0.5; 0.25; 0.5; 3; 0.5; 3; 0.5])).
  - exact std_normal_total.
  - repeat constructor. lia.
Defined.


(** On the half line from [0.0]: the first proposal, [1.0], is rejected;
    the second, [-5.0], is outside the domain and the log-target raises.
    [sample(3)] ends there with the history [[0.0; 0.0]]. *)
Lemma logTarget_error_aborts_witness :
  let w := tape_world (__init__ half_line 0) [1; 0.5; -5; 0.5; 3; 0.5] in
  let w1' := tape_world (samples_append 0 (__init__ half_line 0)) [0.5; 3; 0.5] in
  tape_accept (-5) w1' = (inl (Raised 1), w1') /\
  tape_sample 3 w = (inl (Raised 1), w1').
Proof.
  apply (logTarget_error_aborts Tape tape_normal tape_uniform log_table
           (tape_world (__init__ half_line 0) [1; 0.5; -5; 0.5; 3; 0.5])
           (tape_world (samples_append 0 (__init__ half_line 0)) [-5; 0.5; 3; 0.5])
           1 3 (Raised 1)).
  - cbn. lia.
  - reflexivity.
  - left. reflexivity.
Defined.

(** A sampler after one block of adaptation. *)
Lemma stepSize_of_reachable_witness :
  let w := tape_world (__init__ std_normal 0) [0.5; 0.5; 0.25; 0.5] in
  let m := self (snd (tape_adapt [2]%Z w)) in
  step_value (stepSize m) /\
  (0 <=? stepSize m) = true /\
  ((1 <= 1074)%nat -> (0 <? stepSize m) = true) /\
  stepSize (__init__ std_normal 0) = 1 /\
  stepSize (self (snd (tape_sample 2 {| self := m; rng := [3; 0.5] |}))) = stepSize m /\
  (let s' := stepSize (self (snd (adapt_block Tape tape_normal tape_uniform log_table
                                    2 (PyInt 0) {| self := m; rng := [3; 0.5] |}))) in
   s' = stepSize m \/ s' = stepSize m / 2 \/ s' = stepSize m * 2).
Proof.
  apply (stepSize_of_reachable Tape tape_normal tape_uniform log_table 1
           (self (snd (tape_adapt [2]%Z
              (tape_world (__init__ std_normal 0) [0.5; 0.5; 0.25; 0.5]))))
           [3; 0.5] 2 2 (PyInt 0) std_normal 0).
  exact (reach_adapt Tape tape_normal tape_uniform log_table 0
           (__init__ std_normal 0) [0.5; 0.5; 0.25; 0.5] [2]%Z
           (reach_init Tape tape_normal tape_uniform log_table std_normal 0)).
Defined.

(** 1075 blocks of one iteration on the point mass at [0.0], every
    proposal one step size away and so rejected: each block halves the
    step size, and the last halving, of [2^-1074], gives [0.0]. *)
Lemma positive_stepSize_counterexample :
  let w := tape_world (__init__ point_mass 0) (unit_tape 1075) in
  let m := self (snd (tape_adapt (repeat 1%Z 1075) w)) in
  tape_reachable 1075 m /\
  stepSize m = 0 /\
  (0 <? stepSize m) = false /\
  length (samples m) = 1076%nat.
Proof.
  split.
  - exact (reach_adapt Tape tape_normal tape_uniform log_table 0
             (__init__ point_mass 0) (unit_tape 1075) (repeat 1%Z 1075)
             (reach_init Tape tape_normal tape_uniform log_table point_mass 0)).
  - vm_compute. repeat split.
Qed.

(** On the flat target every proposal is accepted; 1024 blocks double the
    step size up to [2^1023] and then to [inf]. *)
Example stepSize_overflow :
  stepSize (self (snd (tape_adapt (repeat 1%Z 1024)
     (tape_world (__init__ flat 0) (unit_tape 1024))))) = infinity.
Proof. vm_compute. reflexivity. Qed.

(** A negative count. *)
Lemma sample_nonpositive_noop_witness :
  let w := tape_world (__init__ std_normal 0) [0.5; 0.5] in
  tape_sample (-3) w = (inr (self w), w).
Proof.
  apply (sample_nonpositive_noop Tape tape_normal tape_uniform log_table (-3)
           (tape_world (__init__ std_normal 0) [0.5; 0.5])).
  lia.
Defined.


(** After a block of two accepted proposals the history ends at [0.75]. *)
Lemma history_ends_at_currentState_witness :
  let m := self (snd (tape_adapt [2]%Z
             (tape_world (__init__ std_normal 0) [0.5; 0.5; 0.25; 0.5]))) in
  (exists h, samples m = h ++ [currentState m]) /\
  samples m <> [] /\
  In (currentState m) (samples m).
Proof.
  apply (history_ends_at_currentState Tape tape_normal tape_uniform log_table 1).
  exact (reach_adapt Tape tape_normal tape_uniform log_table 0
           (__init__ std_normal 0) [0.5; 0.5; 0.25; 0.5] [2]%Z
           (reach_init Tape tape_normal tape_uniform log_table std_normal 0)).
Defined.

(** One iteration and then two, against three at once. *)
Lemma sample_twice_witness :
  let w := tape_world (__init__ std_normal 0) [0.5; 0.5; 0.25; 0.5; 3; 0.5] in
  bind Tape (tape_sample 1) (fun _ => tape_sample 2) w = tape_sample (1 + 2) w.
Proof.
  apply (sample_twice Tape tape_normal tape_uniform log_table 1 2
           (tape_world (__init__ std_normal 0) [0.5; 0.5; 0.25; 0.5; 3; 0.5]));
    lia.
Defined.

(** A block of two and then a block of two, against both at once. *)
Lemma adapt_twice_witness :
  let w := tape_world (__init__ std_normal 0) [0.5; 0.5; 0.25; 0.5; 3; 0.5; 3; 0.5] in
  bind Tape (tape_adapt [2]%Z) (fun _ => tape_adapt [2]%Z) w =
  tape_adapt ([2] ++ [2])%Z w.
Proof.
  apply (adapt_twice Tape tape_normal tape_uniform log_table [2]%Z [2]%Z
           (tape_world (__init__ std_normal 0)
              [0.5; 0.5; 0.25; 0.5; 3; 0.5; 3; 0.5])
           (self (snd (tape_adapt [2; 2]%Z
              (tape_world (__init__ std_normal 0)
                 [0.5; 0.5; 0.25; 0.5; 3; 0.5; 3; 0.5]))))).
  - discriminate.
  - reflexivity.
Defined.

(** With an empty second call the two differ: the rate is reset to [0]. *)
Example adapt_then_empty :
  let w := tape_world (__init__ std_normal 0) [0.5; 0.5; 0.25; 0.5] in
  acceptanceRate (self (snd (tape_adapt [2]%Z w))) = Some (PyFloat 1) /\
  acceptanceRate
    (self (snd (bind Tape (tape_adapt [2]%Z) (fun _ => tape_adapt []) w))) =
    Some (PyInt 0).
Proof. vm_compute. split; reflexivity. Qed.

(** The exception of [sample] on the half line is the log-target's. *)
Lemma sample_raises_only_target_witness :
  exists x, half_line x = inl (Raised 1).
Proof.
  exact (sample_raises_only_target Tape tape_normal tape_uniform log_table 3
           (tape_world (__init__ half_line 0) [1; 0.5; -5; 0.5; 3; 0.5])
           (Raised 1) eq_refl).
Defined.

(** The exception of [adapt([2, 0, 2])] is the division's. *)
Lemma adapt_raises_only_zero_or_target_witness :
  (ZeroDivisionError = ZeroDivisionError /\ In 0%Z [2; 0; 2]%Z) \/
  exists x, std_normal x = inl ZeroDivisionError.
Proof.
  exact (adapt_raises_only_zero_or_target Tape tape_normal tape_uniform log_table
           [2; 0; 2]%Z
           (tape_world (__init__ std_normal 0)
              [0.5; 0.5; 0.25; 0.5; 3; 0.5; 3; 0.5])
           ZeroDivisionError eq_refl).
Defined.

(** A chain started on the spike stays there. *)
Lemma stuck_chain_stays_witness :
  let w := tape_world (__init__ spike 0) (unit_tape 3) in
  let m' := self (snd (tape_sample 3 w)) in
  currentState m' = 0 /\
  exists j, (j <= range_len 3)%nat /\ samples m' = [0] ++ repeat 0 j.
Proof.
  exact (stuck_chain_stays Tape tape_normal tape_uniform log_table 3
           (tape_world (__init__ spike 0) (unit_tape 3)) infinity
           eq_refl (or_introl eq_refl)).
Defined.

Example stuck_chain_history :
  samples (self (snd (tape_sample 3 (tape_world (__init__ spike 0) (unit_tape 3)))))
    = [0; 0; 0; 0].
Proof. vm_compute. reflexivity. Qed.

Abbreviation tape_simulate := (simulate cdf_table (list Z) tape_binomial).

(** One criterion, ten signal and ten noise trials, the draws 7 and 2. *)
Lemma simulate_conserves_trials_witness :
  length [mkSignalDetection 7 3 2 8] = length [0] /\
  Forall (trials 10 10) [mkSignalDetection 7 3 2 8].
Proof.
  exact (simulate_conserves_trials cdf_table (list Z) tape_binomial
           1 [0] 10 10 [7; 2]%Z [] [mkSignalDetection 7 3 2 8] eq_refl).
Defined.

Example simulate_run :
  tape_simulate 1 [0] 10 10 [7; 2]%Z = (inr [mkSignalDetection 7 3 2 8], []) /\
  tape_simulate 1 [0] (-1) 10 [7; 2]%Z = (inl (Raised 22), [7; 2]%Z).
Proof. vm_compute. split; reflexivity. Qed.

Lemma simulated_d_prime_witness :
  (10%Z <> 0%Z /\ 10%Z <> 0%Z ->
     exists d c, d_prime ppf_table (mkSignalDetection 7 3 2 8) = inr d /\
                 criterion ppf_table (mkSignalDetection 7 3 2 8) = inr c) /\
  (10%Z = 0%Z \/ 10%Z = 0%Z ->
     d_prime ppf_table (mkSignalDetection 7 3 2 8) = inl ZeroDivisionError /\
     criterion ppf_table (mkSignalDetection 7 3 2 8) = inl ZeroDivisionError).
Proof.
  exact (simulated_d_prime cdf_table ppf_table (list Z) tape_binomial
           1 [0] 10 10 [7; 2]%Z [] [mkSignalDetection 7 3 2 8]
           (mkSignalDetection 7 3 2 8) eq_refl (or_introl eq_refl)).
Defined.

(** With no signal trials [d_prime] raises; with three hits in four and one
    false alarm in four it is [ppf(0.75) - ppf(0.25)]. *)
Example d_prime_runs :
  d_prime ppf_table (mkSignalDetection 0 0 1 3) = inl ZeroDivisionError /\
  d_prime ppf_table (mkSignalDetection 3 1 1 3) = inr 1.3489795003921634 /\
  criterion ppf_table (mkSignalDetection 3 1 1 3) = inr 0.33724487509804085.
Proof. vm_compute. repeat split. Qed.
